(** * The completion visitor of src/language/visitor.ts

    A shallow embedding of the [Visitor] class: the trigger-character
    injector, the parse step, the walk over the syntax tree with its
    battery of structural checks, and the selection geometry.

    The source parser and the tree walker ([@babel/parser],
    [@babel/traverse]) are external collaborators of the visitor.  The
    parser is taken as a parameter [parse : string -> option node]
    ([None] stands for a thrown syntax error); the walker is modelled in
    [Module Babel] as the enter-order walk over the children of a node.

    Numbers are the integers the editor and the parser produce (lines,
    characters, columns), as [Z].  A string is the sequence of its code
    units.  The visitor is passed explicitly: a method takes [this] and
    returns it as the method leaves it. *)

From Stdlib Require Import ZArith String Ascii.
From stdpp Require Import gmap strings list.

Local Open Scope Z_scope.
Set Warnings "-register-all".

(** ** JavaScript values and strings *)

(** The values the visitor stores in its state object. *)
Inductive jsval :=
| JNull
| JBool (b : bool)
| JStr (s : string).

Inductive exn :=
| TypeError.

(** A call either returns or throws. *)
Inductive outcome (A : Type) :=
| Ok (a : A)
| Throw (e : exn).
Arguments Ok {A} a.
Arguments Throw {A} e.

Definition nl : ascii := ascii_of_nat 10.

(** [s.split('\n')] *)
Fixpoint split (s : string) : list string :=
  match s with
  | EmptyString => [EmptyString]
  | String c s' =>
      if Ascii.eqb c nl then EmptyString :: split s'
      else match split s' with
           | l :: ls => String c l :: ls
           | [] => [String c EmptyString]
           end
  end.

(** [ls.join('\n')] *)
Fixpoint join (ls : list string) : string :=
  match ls with
  | [] => EmptyString
  | [l] => l
  | l :: ls' => l +:+ String nl (join ls')
  end.

(** [s.includes(sub)] *)
Fixpoint includes (s sub : string) : bool :=
  String.prefix sub s ||
  match s with
  | EmptyString => false
  | String _ s' => includes s' sub
  end.

(** Relative indices of [slice]: a negative index counts from the end,
    and every index is clamped to [0, len]. *)
Definition slice_index (len i : Z) : Z :=
  if i <? 0 then Z.max (len + i) 0 else Z.min i len.

(** [s.slice(b, e)] *)
Definition slice (s : string) (b e : Z) : string :=
  let len := Z.of_nat (String.length s) in
  let from := slice_index len b in
  let to := slice_index len e in
  substring (Z.to_nat from) (Z.to_nat (to - from)) s.

(** [s.slice(b)] *)
Definition slice_from (s : string) (b : Z) : string :=
  slice s b (Z.of_nat (String.length s)).

(** [a[i]] on an array of strings: [None] is [undefined]. *)
Definition array_get (a : list string) (i : Z) : option string :=
  if i <? 0 then None else a !! Z.to_nat i.

(** [a[i] = x]: in range the element is replaced; past the end the array
    grows and the holes in between read as the empty string in [join];
    a negative index adds a property and leaves the elements alone. *)
Definition array_set (a : list string) (i : Z) (x : string) : list string :=
  if i <? 0 then a
  else if (Z.to_nat i <? length a)%nat then <[Z.to_nat i := x]> a
  else a ++ replicate (Z.to_nat i - length a)%nat EmptyString ++ [x].

(** A value interpolated in a template literal. *)
Definition template_str (o : option string) : string :=
  match o with
  | Some s => s
  | None => "undefined"
  end.

(** ** The syntax tree and its walker (external collaborators) *)

Module Babel.

(** Lines are 1-based, columns 0-based. *)
Record Position := { line : Z; column : Z }.

Record SourceLocation := { start : Position; end_ : Position }.

(** The node kinds the visitor inspects, with the fields it reads and
    the children the walker follows; every other kind is an
    [OtherNode] with its children in walking order.  A hole of an
    array expression is [None]. *)
Inductive node :=
| File (loc : option SourceLocation) (program : node)
| Program (loc : option SourceLocation) (directives body : list node)
| ExpressionStatement (loc : option SourceLocation) (expression : node)
| CallExpression (loc : option SourceLocation) (callee : node)
    (arguments : list node)
| MemberExpression (loc : option SourceLocation) (object property : node)
    (computed : bool)
| Identifier (loc : option SourceLocation) (name : string)
| StringLiteral (loc : option SourceLocation) (value : string)
| TemplateLiteral (loc : option SourceLocation)
    (quasis expressions : list node)
| TemplateElement (loc : option SourceLocation) (raw : string)
| ObjectExpression (loc : option SourceLocation) (properties : list node)
| ObjectProperty (loc : option SourceLocation) (key value : node)
| ArrayExpression (loc : option SourceLocation)
    (elements : list (option node))
| OtherNode (loc : option SourceLocation) (children : list node).

Definition loc_of (n : node) : option SourceLocation :=
  match n with
  | File l _ | Program l _ _ | ExpressionStatement l _
  | CallExpression l _ _ | MemberExpression l _ _ _ | Identifier l _
  | StringLiteral l _ | TemplateLiteral l _ _ | TemplateElement l _
  | ObjectExpression l _ | ObjectProperty l _ _ | ArrayExpression l _
  | OtherNode l _ => l
  end.

(** A node followed by its descendants, in enter order. *)
Fixpoint subtree (n : node) : list node :=
  n ::
  match n with
  | File _ program => subtree program
  | Program _ directives body =>
      flat_map subtree directives ++ flat_map subtree body
  | ExpressionStatement _ expression => subtree expression
  | CallExpression _ callee arguments =>
      subtree callee ++ flat_map subtree arguments
  | MemberExpression _ object property _ =>
      subtree object ++ subtree property
  | Identifier _ _ | StringLiteral _ _ | TemplateElement _ _ => []
  | TemplateLiteral _ quasis expressions =>
      flat_map subtree quasis ++ flat_map subtree expressions
  | ObjectExpression _ properties => flat_map subtree properties
  | ObjectProperty _ key value => subtree key ++ subtree value
  | ArrayExpression _ elements =>
      flat_map (fun item => match item with
                            | Some e => subtree e
                            | None => []
                            end) elements
  | OtherNode _ children => flat_map subtree children
  end.

(** The nodes a walk started at [n] enters: the walker visits the
    children of its root, not the root itself. *)
Definition descendants (n : node) : list node := tail (subtree n).

(** [traverse(parent, { enter })]: nothing happens without a tree;
    otherwise [enter] runs on every descendant in enter order, each
    call seeing the state the previous ones left. *)
Definition traverse {S : Type} (parent : option node)
    (enter : node -> S -> S) (s : S) : S :=
  match parent with
  | None => s
  | Some p => fold_left (fun s n => enter n s) (descendants p) s
  end.

End Babel.

Import Babel (node, File, Program, ExpressionStatement, CallExpression,
  MemberExpression, Identifier, StringLiteral, TemplateLiteral,
  TemplateElement, ObjectExpression, ObjectProperty, ArrayExpression,
  OtherNode).

(** ** The visitor *)

Definition PLACEHOLDER : string := "TRIGGER_CHARACTER".

(** Editor positions: 0-based line and character. *)
Record Position := { line : Z; character : Z }.

Record VisitorSelection := { start : Position; end_ : Position }.

(** The object behind [this]: [_state] is a JavaScript object, a finite
    map from field names to values, so that [key in this._state] is a
    test on its domain. *)
Record Visitor := {
  _state : gmap string jsval;
  _selection : VisitorSelection
}.

(** [new Visitor()] *)
Definition constructor : Visitor :=
  {| _state := ∅;
     _selection := {| start := {| line := 0; character := 0 |};
                      end_ := {| line := 0; character := 0 |} |} |}.

(** [key in this._state] *)
Definition in_state (key : string) (this : Visitor) : bool :=
  match _state this !! key with
  | Some _ => true
  | None => false
  end.

(** [this._state[key] = v] *)
Definition set_state (key : string) (v : jsval) (this : Visitor) : Visitor :=
  {| _state := <[key := v]> (_state this); _selection := _selection this |}.

(** The statement every check ends in:
    [if (cond && key in this._state) { this._state[key] = v; }] *)
Definition assign_if (cond : bool) (key : string) (v : jsval)
    (this : Visitor) : Visitor :=
  if cond && in_state key this then set_state key v this else this.

(** *** Shapes of nodes tested by the checks *)

(** [n.type === 'Identifier' && n.name === s] *)
Definition isIdentifier (n : node) (s : string) : bool :=
  match n with
  | Identifier _ name => String.eqb name s
  | _ => false
  end.

(** [n.type === 'Identifier' && n.name.includes(PLACEHOLDER)] *)
Definition identifierIncludes (n : node) : bool :=
  match n with
  | Identifier _ name => includes name PLACEHOLDER
  | _ => false
  end.

(** [n.type === 'StringLiteral' && n.value.includes(PLACEHOLDER)] *)
Definition stringLiteralIncludes (n : node) : bool :=
  match n with
  | StringLiteral _ value => includes value PLACEHOLDER
  | _ => false
  end.

(** [n.type === 'TemplateLiteral' && n.quasis.length === 1 &&
     n.quasis[0].value.raw.includes(PLACEHOLDER)] *)
Definition templateIncludes (n : node) : bool :=
  match n with
  | TemplateLiteral _ [TemplateElement _ raw] _ => includes raw PLACEHOLDER
  | _ => false
  end.

(** [n.type === 'MemberExpression' && n.object.type === 'Identifier' &&
     n.object.name === root] *)
Definition isMemberOf (n : node) (root : string) : bool :=
  match n with
  | MemberExpression _ object _ _ => isIdentifier object root
  | _ => false
  end.

(** [n.type === 'MemberExpression' && n.object.type === 'Identifier' &&
     n.object.name === root && n.property.type === 'Identifier' &&
     n.property.name === method] *)
Definition isMethodOf (n : node) (root method : string) : bool :=
  match n with
  | MemberExpression _ object property _ =>
      isIdentifier object root && isIdentifier property method
  | _ => false
  end.

(** [n.type === 'CallExpression' && n.callee] is [root.method] *)
Definition isCallOf (n : node) (root method : string) : bool :=
  match n with
  | CallExpression _ callee _ => isMethodOf callee root method
  | _ => false
  end.

(** [n.type === 'CallExpression' &&
     n.callee.type === 'MemberExpression' && !n.callee.computed &&
     n.callee.property.type === 'Identifier' &&
     n.callee.property.name === method] *)
Definition isCallOfMethod (n : node) (method : string) : bool :=
  match n with
  | CallExpression _ (MemberExpression _ _ property computed) _ =>
      negb computed && isIdentifier property method
  | _ => false
  end.

(** *** The trigger-character injector *)

Definition _handleTriggerCharacter (textFromEditor : string)
    (position : Position) : outcome string :=
  let textLines := split textFromEditor in
  let current := array_get textLines (line position) in
  (* Text before the current character *)
  let prefix : outcome string :=
    if character position =? 0 then Ok EmptyString
    else match current with
         | Some l => Ok (slice l 0 (character position))
         | None => Throw TypeError
         end in
  (* Text after the current character *)
  let postfix : outcome (option string) :=
    if character position =? 0 then Ok current
    else match current with
         | Some l => Ok (Some (slice_from l (character position)))
         | None => Throw TypeError
         end in
  match prefix, postfix with
  | Ok prefix, Ok postfix =>
      let textLines :=
        array_set textLines (line position)
          (prefix +:+ PLACEHOLDER +:+ template_str postfix) in
      Ok (join textLines)
  | Throw e, _ | _, Throw e => Throw e
  end.

(** *** Checks on call expressions *)

Definition _checkIsUseCallAsSimpleString (node : node) (this : Visitor)
    : Visitor :=
  assign_if
    match node with
    | CallExpression _ callee [argument] =>
        isIdentifier callee "use" && stringLiteralIncludes argument
    | _ => false
    end
    "isUseCallExpression" (JBool true) this.

Definition _checkIsUseCallAsTemplate (node : node) (this : Visitor)
    : Visitor :=
  assign_if
    match node with
    | CallExpression _ callee [TemplateLiteral _ [TemplateElement _ raw] _] =>
        isIdentifier callee "use" && negb (String.eqb raw EmptyString) &&
        includes raw PLACEHOLDER
    | _ => false
    end
    "isUseCallExpression" (JBool true) this.

Definition _checkIsUseCall (node : node) (this : Visitor) : Visitor :=
  let this := _checkIsUseCallAsSimpleString node this in
  _checkIsUseCallAsTemplate node this.

(** The callers below establish [node.arguments.length === 1] before
    [node.arguments[0]] is read. *)
Definition _checkGetCollectionAsSimpleString (node : node) (this : Visitor)
    : Visitor :=
  assign_if
    match node with
    | CallExpression _ _ (argument :: _) => stringLiteralIncludes argument
    | _ => false
    end
    "isCollectionName" (JBool true) this.

Definition _checkGetCollectionAsTemplate (node : node) (this : Visitor)
    : Visitor :=
  assign_if
    match node with
    | CallExpression _ _ (argument :: _) => templateIncludes argument
    | _ => false
    end
    "isCollectionName" (JBool true) this.

Definition _checkIsCollectionNameAsCallExpression (node : node)
    (this : Visitor) : Visitor :=
  if match node with
     | CallExpression _ callee [_] => isMethodOf callee "db" "getCollection"
     | _ => false
     end
  then
    let this := _checkGetCollectionAsSimpleString node this in
    _checkGetCollectionAsTemplate node this
  else this.

Definition _checkGetStreamProcessorAsSimpleString (node : node)
    (this : Visitor) : Visitor :=
  assign_if
    match node with
    | CallExpression _ _ (argument :: _) => stringLiteralIncludes argument
    | _ => false
    end
    "isStreamProcessorName" (JBool true) this.

Definition _checkGetStreamProcessorAsTemplate (node : node)
    (this : Visitor) : Visitor :=
  assign_if
    match node with
    | CallExpression _ _ (argument :: _) => templateIncludes argument
    | _ => false
    end
    "isStreamProcessorName" (JBool true) this.

Definition _checkIsStreamProcessorNameAsCallExpression (node : node)
    (this : Visitor) : Visitor :=
  if match node with
     | CallExpression _ callee [_] => isMethodOf callee "sp" "getProcessor"
     | _ => false
     end
  then
    let this := _checkGetStreamProcessorAsSimpleString node this in
    _checkGetStreamProcessorAsTemplate node this
  else this.

(** The cursor is at or after the end of the node: the parser's lines are
    1-based, the editor's 0-based. *)
Definition endsBeforeSelection (loc : Babel.SourceLocation)
    (this : Visitor) : bool :=
  let cursor := start (_selection this) in
  (line cursor >? Babel.line (Babel.end_ loc) - 1) ||
  ((line cursor =? Babel.line (Babel.end_ loc) - 1) &&
   (character cursor >=? Babel.column (Babel.end_ loc))).

(** The argument of a [use('literal')] call that ends before the cursor. *)
Definition databaseNameBeforeSelection (node : node) (this : Visitor)
    : option string :=
  match node with
  | CallExpression (Some loc) callee [StringLiteral _ value] =>
      if isIdentifier callee "use" && endsBeforeSelection loc this
      then Some value else None
  | _ => None
  end.

Definition _checkHasDatabaseName (node : node) (this : Visitor) : Visitor :=
  match databaseNameBeforeSelection node this with
  | Some value => assign_if true "databaseName" (JStr value) this
  | None => this
  end.

(** *** Checks on member expressions *)

Definition _checkHasAggregationCall (node : node) (this : Visitor)
    : Visitor :=
  assign_if
    match node with
    | MemberExpression _ object property _ =>
        identifierIncludes property && isCallOfMethod object "aggregate"
    | _ => false
    end
    "isAggregationCursor" (JBool true) this.

Definition _checkHasFindCall (node : node) (this : Visitor) : Visitor :=
  assign_if
    match node with
    | MemberExpression _ object property _ =>
        identifierIncludes property && isCallOfMethod object "find"
    | _ => false
    end
    "isFindCursor" (JBool true) this.

Definition _checkIsCollectionMemberExpression (node : node)
    (this : Visitor) : Visitor :=
  assign_if
    match node with
    | MemberExpression _ object property _ =>
        isMemberOf object "db" && identifierIncludes property
    | _ => false
    end
    "isCollectionSymbol" (JBool true) this.

Definition _checkIsCollectionCallExpression (node : node) (this : Visitor)
    : Visitor :=
  assign_if
    match node with
    | MemberExpression _ object property _ =>
        isCallOf object "db" "getCollection" && identifierIncludes property
    | _ => false
    end
    "isCollectionSymbol" (JBool true) this.

Definition _checkIsCollectionSymbol (node : node) (this : Visitor)
    : Visitor :=
  let this := _checkIsCollectionMemberExpression node this in
  _checkIsCollectionCallExpression node this.

Definition _checkIsCollectionNameAsMemberExpression (node : node)
    (this : Visitor) : Visitor :=
  assign_if
    match node with
    | MemberExpression _ object property _ =>
        isIdentifier object "db" &&
        (identifierIncludes property || stringLiteralIncludes property)
    | _ => false
    end
    "isCollectionName" (JBool true) this.

(** The name under [root] in [root.name.…] or [root['name'].…]: the
    property of the object of the member expression. *)
Definition nameOfMemberObject (node : node) (root : string)
    : option string :=
  match node with
  | MemberExpression _ (MemberExpression _ object property _) _ _ =>
      if isIdentifier object root then
        match property with
        | Identifier _ name => Some name
        | StringLiteral _ value => Some value
        | _ => None
        end
      else None
  | _ => None
  end.

(** The argument of [root.method('literal').…]. *)
Definition nameOfCallObject (node : node) (root method : string)
    : option string :=
  match node with
  | MemberExpression _ (CallExpression _ callee [StringLiteral _ value]) _ _ =>
      if isMethodOf callee root method then Some value else None
  | _ => None
  end.

Definition _checkHasCollectionNameMemberExpression (node : node)
    (this : Visitor) : Visitor :=
  match nameOfMemberObject node "db" with
  | Some name => assign_if true "collectionName" (JStr name) this
  | None => this
  end.

Definition _checkHasCollectionNameCallExpression (node : node)
    (this : Visitor) : Visitor :=
  match nameOfCallObject node "db" "getCollection" with
  | Some value => assign_if true "collectionName" (JStr value) this
  | None => this
  end.

Definition _checkHasCollectionName (node : node) (this : Visitor)
    : Visitor :=
  let this := _checkHasCollectionNameMemberExpression node this in
  _checkHasCollectionNameCallExpression node this.

Definition _checkIsStreamProcessorMemberExpression (node : node)
    (this : Visitor) : Visitor :=
  assign_if
    match node with
    | MemberExpression _ object property _ =>
        isMemberOf object "sp" && identifierIncludes property
    | _ => false
    end
    "isStreamProcessorSymbol" (JBool true) this.

Definition _checkIsStreamProcessorCallExpression (node : node)
    (this : Visitor) : Visitor :=
  assign_if
    match node with
    | MemberExpression _ object property _ =>
        isCallOf object "sp" "getProcessor" && identifierIncludes property
    | _ => false
    end
    "isStreamProcessorSymbol" (JBool true) this.

Definition _checkIsStreamProcessorSymbol (node : node) (this : Visitor)
    : Visitor :=
  let this := _checkIsStreamProcessorMemberExpression node this in
  _checkIsStreamProcessorCallExpression node this.

(** This check tests one field and writes two. *)
Definition _checkIsStreamProcessorNameAsMemberExpression (node : node)
    (this : Visitor) : Visitor :=
  if match node with
     | MemberExpression _ object property _ =>
         isIdentifier object "sp" &&
         (identifierIncludes property || stringLiteralIncludes property)
     | _ => false
     end
     && in_state "isStreamProcessorName" this
  then
    let this := set_state "isSpSymbol" (JBool true) this in
    set_state "isStreamProcessorName" (JBool true) this
  else this.

Definition _checkHasStreamProcessorNameMemberExpression (node : node)
    (this : Visitor) : Visitor :=
  match nameOfMemberObject node "sp" with
  | Some name => assign_if true "streamProcessorName" (JStr name) this
  | None => this
  end.

Definition _checkHasStreamProcessorNameCallExpression (node : node)
    (this : Visitor) : Visitor :=
  match nameOfCallObject node "sp" "getProcessor" with
  | Some value => assign_if true "streamProcessorName" (JStr value) this
  | None => this
  end.

Definition _checkHasStreamProcessorName (node : node) (this : Visitor)
    : Visitor :=
  let this := _checkHasStreamProcessorNameMemberExpression node this in
  _checkHasStreamProcessorNameCallExpression node this.

(** *** Checks on expression statements *)

Definition _checkIsGlobalSymbol (node : node) (this : Visitor) : Visitor :=
  assign_if
    match node with
    | ExpressionStatement _ expression => identifierIncludes expression
    | _ => false
    end
    "isGlobalSymbol" (JBool true) this.

Definition _checkIsDbSymbol (node : node) (this : Visitor) : Visitor :=
  assign_if
    match node with
    | ExpressionStatement _ expression => isMemberOf expression "db"
    | _ => false
    end
    "isDbSymbol" (JBool true) this.

Definition _checkIsSpSymbol (node : node) (this : Visitor) : Visitor :=
  assign_if
    match node with
    | ExpressionStatement _ expression => isMemberOf expression "sp"
    | _ => false
    end
    "isSpSymbol" (JBool true) this.

(** *** Checks on object expressions

    The callback given to [properties.find] returns nothing, so [find]
    runs it on every property, one after the other. *)

Definition _checkIsObjectKey (node : node) (this : Visitor) : Visitor :=
  match node with
  | ObjectExpression _ properties =>
      fold_left (fun this item =>
        assign_if
          match item with
          | ObjectProperty _ key _ => identifierIncludes key
          | _ => false
          end
          "isObjectKey" (JBool true) this) properties this
  | _ => this
  end.

Definition _checkIsIdentifierObjectValue (node : node) (this : Visitor)
    : Visitor :=
  match node with
  | ObjectExpression _ properties =>
      fold_left (fun this item =>
        assign_if
          match item with
          | ObjectProperty _ _ value => identifierIncludes value
          | _ => false
          end
          "isIdentifierObjectValue" (JBool true) this) properties this
  | _ => this
  end.

Definition _checkIsTextObjectValue (node : node) (this : Visitor)
    : Visitor :=
  match node with
  | ObjectExpression _ properties =>
      fold_left (fun this item =>
        assign_if
          match item with
          | ObjectProperty _ _ value =>
              stringLiteralIncludes value || templateIncludes value
          | _ => false
          end
          "isTextObjectValue" (JBool true) this) properties this
  | _ => this
  end.

(** *** Checks on array expressions *)

Definition _checkIsStage (node : node) (this : Visitor) : Visitor :=
  match node with
  | ArrayExpression _ elements =>
      fold_left (fun this item =>
        match item with
        | Some (ObjectExpression _ properties) =>
            fold_left (fun this item =>
              assign_if
                match item with
                | ObjectProperty _ key _ => identifierIncludes key
                | _ => false
                end
                "isStage" (JBool true) this) properties this
        | _ => this
        end) elements this
  | _ => this
  end.

(** The [enter] callback of the walk below a stage: an object property
    whose key carries the marker records the stage's name. *)
Definition enterStage (name : string) (path : node) (this : Visitor)
    : Visitor :=
  assign_if
    match path with
    | ObjectProperty _ key _ => identifierIncludes key
    | _ => false
    end
    "stageOperator" (JStr name) this.

Definition _checkIsStageOperator (path : node) (this : Visitor) : Visitor :=
  match path with
  | ArrayExpression _ elements =>
      fold_left (fun this item =>
        match item with
        | Some (ObjectExpression _ properties) =>
            fold_left (fun this item =>
              match item with
              | ObjectProperty _ (Identifier _ name) (ObjectExpression _ _) =>
                  Babel.traverse (Some item) (enterStage name) this
              | _ => this
              end) properties this
        | _ => this
        end) elements this
  | _ => this
  end.

(** *** Selection geometry *)

(** A number in a condition: zero is falsy. *)
Definition truthy (z : Z) : bool := negb (z =? 0).

Definition _isWithinSelection (node : node) (this : Visitor) : bool :=
  match Babel.loc_of node with
  | Some loc =>
      truthy (Babel.line (Babel.start loc)) &&
      (Babel.line (Babel.start loc) - 1 =? line (start (_selection this))) &&
      truthy (Babel.column (Babel.start loc)) &&
      (Babel.column (Babel.start loc) >=?
         character (start (_selection this))) &&
      truthy (Babel.line (Babel.end_ loc)) &&
      (Babel.line (Babel.end_ loc) - 1 =? line (end_ (_selection this))) &&
      truthy (Babel.column (Babel.end_ loc)) &&
      (Babel.column (Babel.end_ loc) <=? character (end_ (_selection this)))
  | None => false
  end.

(** *** The walk *)

Definition _visitCallExpression (path : node) (this : Visitor) : Visitor :=
  match path with
  | CallExpression _ _ _ =>
      let this := _checkIsUseCall path this in
      let this := _checkIsCollectionNameAsCallExpression path this in
      let this := _checkIsStreamProcessorNameAsCallExpression path this in
      _checkHasDatabaseName path this
  | _ => this
  end.

Definition _visitMemberExpression (path : node) (this : Visitor)
    : Visitor :=
  match path with
  | MemberExpression _ _ _ _ =>
      let this := _checkHasAggregationCall path this in
      let this := _checkHasFindCall path this in
      let this := _checkIsCollectionSymbol path this in
      let this := _checkIsCollectionNameAsMemberExpression path this in
      let this := _checkHasCollectionName path this in
      let this := _checkIsStreamProcessorSymbol path this in
      let this := _checkIsStreamProcessorNameAsMemberExpression path this in
      _checkHasStreamProcessorName path this
  | _ => this
  end.

Definition _visitExpressionStatement (path : node) (this : Visitor)
    : Visitor :=
  match path with
  | ExpressionStatement _ _ =>
      let this := _checkIsGlobalSymbol path this in
      let this := _checkIsDbSymbol path this in
      _checkIsSpSymbol path this
  | _ => this
  end.

Definition _visitObjectExpression (path : node) (this : Visitor)
    : Visitor :=
  match path with
  | ObjectExpression _ _ =>
      let this := _checkIsObjectKey path this in
      let this := _checkIsIdentifierObjectValue path this in
      _checkIsTextObjectValue path this
  | _ => this
  end.

Definition _visitArrayExpression (path : node) (this : Visitor) : Visitor :=
  match path with
  | ArrayExpression _ _ =>
      let this := _checkIsStage path this in
      _checkIsStageOperator path this
  | _ => this
  end.

(** The [enter] callback of [parseAST]. *)
Definition enter (path : node) (this : Visitor) : Visitor :=
  let this := _visitCallExpression path this in
  let this := _visitMemberExpression path this in
  let this := _visitExpressionStatement path this in
  let this := _visitObjectExpression path this in
  _visitArrayExpression path this.

(** [parse] returns [None] where the parser throws; the [catch] block is
    empty, so [ast] stays undefined and the walk gets no tree. *)
Definition parseAST (parse : string -> option node)
    (textFromEditor : string) (selection : VisitorSelection)
    (this : Visitor) : Visitor :=
  let this := {| _state := _state this; _selection := selection |} in
  let ast := parse textFromEditor in
  Babel.traverse ast enter this.

Definition _getDefaultsForCompletion : gmap string jsval :=
  list_to_map [
    ("databaseName", JNull);
    ("collectionName", JNull);
    ("streamProcessorName", JNull);
    ("isObjectKey", JBool false);
    ("isIdentifierObjectValue", JBool false);
    ("isTextObjectValue", JBool false);
    ("isStage", JBool false);
    ("stageOperator", JNull);
    ("isCollectionSymbol", JBool false);
    ("isStreamProcessorSymbol", JBool false);
    ("isUseCallExpression", JBool false);
    ("isGlobalSymbol", JBool false);
    ("isDbSymbol", JBool false);
    ("isSpSymbol", JBool false);
    ("isCollectionName", JBool false);
    ("isStreamProcessorName", JBool false);
    ("isAggregationCursor", JBool false);
    ("isFindCursor", JBool false)
  ].

(** Returns the completion state, or the exception thrown on the way,
    together with the visitor as the call leaves it. *)
Definition parseASTForCompletion (parse : string -> option node)
    (textFromEditor : string) (position : Position) (this : Visitor)
    : outcome (gmap string jsval) * Visitor :=
  let selection :=
    {| start := position; end_ := {| line := 0; character := 0 |} |} in
  let this :=
    {| _state := _getDefaultsForCompletion;
       _selection := _selection this |} in
  match _handleTriggerCharacter textFromEditor position with
  | Ok textFromEditor =>
      let this := parseAST parse textFromEditor selection this in
      (Ok (_state this), this)
  | Throw e => (Throw e, this)
  end.

(** ** Vocabulary of the properties *)

(** A line of text holds no line break. *)
Fixpoint no_nl (s : string) : Prop :=
  match s with
  | EmptyString => True
  | String c s' => Ascii.eqb c nl = false /\ no_nl s'
  end.

(** The fields of the completion state, by the type of their values. *)
Definition boolean_fields : list string :=
  [ "isObjectKey"; "isIdentifierObjectValue"; "isTextObjectValue";
    "isStage"; "isCollectionSymbol"; "isStreamProcessorSymbol";
    "isUseCallExpression"; "isGlobalSymbol"; "isDbSymbol"; "isSpSymbol";
    "isCollectionName"; "isStreamProcessorName"; "isAggregationCursor";
    "isFindCursor" ].

Definition string_fields : list string :=
  [ "databaseName"; "collectionName"; "streamProcessorName";
    "stageOperator" ].

Definition name_fields : list string :=
  [ "databaseName"; "collectionName"; "streamProcessorName" ].

(** The writes between two states of the visitor: the selection is
    kept, and a field that changed ends with a value that [allowed]
    admits for that field. *)
Definition touched (allowed : string -> jsval -> Prop)
    (this this' : Visitor) : Prop :=
  _selection this' = _selection this /\
  forall key,
    _state this' !! key = _state this !! key \/
    exists v, allowed key v /\ _state this' !! key = Some v.

(** The writes of the checks: [true] to a flag, a string to a string
    field. *)
Definition flag_or_string (key : string) (v : jsval) : Prop :=
  (key ∈ boolean_fields /\ v = JBool true) \/
  (key ∈ string_fields /\ exists s, v = JStr s).

(** Flags only go up and names are never lost between two states. *)
Definition monotonic (before after : gmap string jsval) : Prop :=
  (forall key, key ∈ boolean_fields ->
     after !! key = before !! key \/ after !! key = Some (JBool true)) /\
  (forall key, key ∈ boolean_fields ->
     before !! key = Some (JBool true) -> after !! key = Some (JBool true)) /\
  (forall key s, key ∈ name_fields ->
     before !! key = Some (JStr s) -> exists s', after !! key = Some (JStr s')).

(** A footprint that leaves one field alone. *)
Definition other_than (field : string) (key : string) (_ : jsval) : Prop :=
  key <> field.

(** Every check of the visitor. *)
Definition checks : list (node -> Visitor -> Visitor) :=
  [ _checkIsUseCallAsSimpleString; _checkIsUseCallAsTemplate;
    _checkIsUseCall; _checkIsGlobalSymbol; _checkIsDbSymbol;
    _checkIsSpSymbol; _checkIsObjectKey; _checkIsIdentifierObjectValue;
    _checkIsTextObjectValue; _checkIsStage; _checkIsStageOperator;
    _checkIsCollectionNameAsMemberExpression;
    _checkGetCollectionAsSimpleString; _checkGetCollectionAsTemplate;
    _checkIsCollectionNameAsCallExpression; _checkHasAggregationCall;
    _checkHasFindCall; _checkHasDatabaseName;
    _checkHasCollectionNameMemberExpression;
    _checkHasCollectionNameCallExpression; _checkHasCollectionName;
    _checkIsCollectionMemberExpression; _checkIsCollectionCallExpression;
    _checkIsCollectionSymbol; _checkIsStreamProcessorNameAsMemberExpression;
    _checkIsStreamProcessorNameAsCallExpression;
    _checkGetStreamProcessorAsSimpleString;
    _checkGetStreamProcessorAsTemplate; _checkHasStreamProcessorName;
    _checkHasStreamProcessorNameMemberExpression;
    _checkHasStreamProcessorNameCallExpression;
    _checkIsStreamProcessorSymbol; _checkIsStreamProcessorMemberExpression;
    _checkIsStreamProcessorCallExpression ].

(** [use('literal')] calls, as the specification words the rule for
    [databaseName]: the call ends on a line before the cursor's, or on
    the cursor's line at or before the cursor's character. *)
Definition ends_before_cursor (loc : Babel.SourceLocation)
    (cursor : Position) : Prop :=
  Babel.line (Babel.end_ loc) - 1 < line cursor \/
  (Babel.line (Babel.end_ loc) - 1 = line cursor /\
   Babel.column (Babel.end_ loc) <= character cursor).

Definition use_literal_before (cursor : Position) (n : node)
    : option string :=
  match n with
  | CallExpression (Some loc) (Identifier _ name) [StringLiteral _ value] =>
      if bool_decide (name = "use" /\ ends_before_cursor loc cursor)
      then Some value else None
  | _ => None
  end.

(** The argument of the last qualifying call in source order. *)
Definition last_use_before (cursor : Position) (ast : node)
    : option string :=
  last (omap (use_literal_before cursor) (Babel.descendants ast)).

(** A member expression chained off a call of [method], with the marker
    in its own property name. *)
Definition chained_off_call (method : string) (n : node) : Prop :=
  exists loc loc1 loc2 loc3 loc4 object arguments name computed,
    n = MemberExpression loc
          (CallExpression loc1
             (MemberExpression loc2 object (Identifier loc3 method) false)
             arguments)
          (Identifier loc4 name) computed /\
    includes name PLACEHOLDER = true.

(** A member access off the bare identifier [root] whose property, an
    identifier or a string literal, carries the marker. *)
Definition member_of_bare (root : string) (n : node) : Prop :=
  exists loc loc1 property computed,
    n = MemberExpression loc (Identifier loc1 root) property computed /\
    (identifierIncludes property = true \/
     stringLiteralIncludes property = true).

(** ** Sample scripts

    The trees are the ones the parser builds for the marker-injected
    texts, with its source locations. *)

Module Samples.

Definition span (l1 c1 l2 c2 : Z) : option Babel.SourceLocation :=
  Some {| Babel.start := {| Babel.line := l1; Babel.column := c1 |};
          Babel.end_ := {| Babel.line := l2; Babel.column := c2 |} |}.

(** A parser that accepts one text and rejects every other. *)
Definition parses (text : string) (ast : node) : string -> option node :=
  fun t => if String.eqb t text then Some ast else None.

(** A parser that rejects every text. *)
Definition rejects : string -> option node := fun _ => None.

Definition at_ (l c : Z) : Position := {| line := l; character := c |}.

(** [db.|] *)
Definition db_dot : string := "db.".
Definition db_dot_ast : node :=
  File (span 1 0 1 20)
    (Program (span 1 0 1 20) []
       [ExpressionStatement (span 1 0 1 20)
          (MemberExpression (span 1 0 1 20)
             (Identifier (span 1 0 1 2) "db")
             (Identifier (span 1 3 1 20) "TRIGGER_CHARACTER") false)]).

(** [db.coll.find({}).|] *)
Definition find_dot : string := "db.coll.find({}).".
Definition find_dot_ast : node :=
  File (span 1 0 1 34)
    (Program (span 1 0 1 34) []
       [ExpressionStatement (span 1 0 1 34)
          (MemberExpression (span 1 0 1 34)
             (CallExpression (span 1 0 1 16)
                (MemberExpression (span 1 0 1 12)
                   (MemberExpression (span 1 0 1 7)
                      (Identifier (span 1 0 1 2) "db")
                      (Identifier (span 1 3 1 7) "coll") false)
                   (Identifier (span 1 8 1 12) "find") false)
                [ObjectExpression (span 1 13 1 15) []])
             (Identifier (span 1 17 1 34) "TRIGGER_CHARACTER") false)]).

(** [db.coll.aggregate([{ $match: { | } }])] *)
Definition match_stage : string := "db.coll.aggregate([{ $match: {  } }])".
Definition match_stage_ast : node :=
  File (span 1 0 1 54)
    (Program (span 1 0 1 54) []
       [ExpressionStatement (span 1 0 1 54)
          (CallExpression (span 1 0 1 54)
             (MemberExpression (span 1 0 1 17)
                (MemberExpression (span 1 0 1 7)
                   (Identifier (span 1 0 1 2) "db")
                   (Identifier (span 1 3 1 7) "coll") false)
                (Identifier (span 1 8 1 17) "aggregate") false)
             [ArrayExpression (span 1 18 1 53)
                [Some (ObjectExpression (span 1 19 1 52)
                   [ObjectProperty (span 1 21 1 50)
                      (Identifier (span 1 21 1 27) "$match")
                      (ObjectExpression (span 1 29 1 50)
                         [ObjectProperty (span 1 31 1 48)
                            (Identifier (span 1 31 1 48)
                               "TRIGGER_CHARACTER")
                            (Identifier (span 1 31 1 48)
                               "TRIGGER_CHARACTER")])])]])]).

(** Two [use] calls on lines of their own, the cursor on a third:
    [use('db')], [use('db2')], [|]. *)
Definition two_uses : string :=
  "use('db')" +:+ String nl ("use('db2')" +:+ String nl EmptyString).
Definition two_uses_injected : string :=
  "use('db')" +:+ String nl ("use('db2')" +:+ String nl PLACEHOLDER).
Definition two_uses_ast : node :=
  File (span 1 0 3 17)
    (Program (span 1 0 3 17) []
       [ExpressionStatement (span 1 0 1 9)
          (CallExpression (span 1 0 1 9)
             (Identifier (span 1 0 1 3) "use")
             [StringLiteral (span 1 4 1 8) "db"]);
        ExpressionStatement (span 2 0 2 10)
          (CallExpression (span 2 0 2 10)
             (Identifier (span 2 0 2 3) "use")
             [StringLiteral (span 2 4 2 9) "db2"]);
        ExpressionStatement (span 3 0 3 17)
          (Identifier (span 3 0 3 17) "TRIGGER_CHARACTER")]).

End Samples.

Import Samples.

(** ** More of the selection geometry *)

Definition _isParentAroundSelection (node : node) (this : Visitor) : bool :=
  match Babel.loc_of node with
  | Some loc =>
      truthy (Babel.line (Babel.start loc)) &&
      ((Babel.line (Babel.start loc) - 1 <? line (start (_selection this))) ||
       ((Babel.line (Babel.start loc) - 1 =? line (start (_selection this))) &&
        (Babel.column (Babel.start loc) <?
           character (start (_selection this))))) &&
      truthy (Babel.line (Babel.end_ loc)) &&
      ((Babel.line (Babel.end_ loc) - 1 >? line (end_ (_selection this))) ||
       ((Babel.line (Babel.end_ loc) - 1 =? line (end_ (_selection this))) &&
        (Babel.column (Babel.end_ loc) >?
           character (end_ (_selection this)))))
  | None => false
  end.

(** [node.key.loc?.end] is an object, truthy whenever the key has a
    location. *)
Definition _isObjectPropBeforeSelection (node : node) (this : Visitor)
    : bool :=
  match node with
  | ObjectProperty _ key _ =>
      match Babel.loc_of key with
      | Some loc =>
          (Babel.line (Babel.end_ loc) - 1 <? line (start (_selection this))) ||
          ((Babel.line (Babel.end_ loc) - 1 =?
              line (start (_selection this))) &&
           (Babel.column (Babel.end_ loc) <?
              character (start (_selection this))))
      | None => false
      end
  | _ => false
  end.

(** ** What the walk looks for

    For each field of the completion state, the nodes that make the walk
    write it. *)

(** [use(<literal with the marker>)]: one argument, a string literal or
    a template of one quasi. *)
Definition isUseCallWithMarker (n : node) : bool :=
  match n with
  | CallExpression _ callee [argument] =>
      isIdentifier callee "use" &&
      (stringLiteralIncludes argument || templateIncludes argument)
  | _ => false
  end.

(** [root.method(<literal with the marker>)] *)
Definition isLookupWithMarker (root method : string) (n : node) : bool :=
  match n with
  | CallExpression _ callee [argument] =>
      isMethodOf callee root method &&
      (stringLiteralIncludes argument || templateIncludes argument)
  | _ => false
  end.

(** [root.<marker>] or [root['<marker>']] *)
Definition isBareMemberWithMarker (root : string) (n : node) : bool :=
  match n with
  | MemberExpression _ object property _ =>
      isIdentifier object root &&
      (identifierIncludes property || stringLiteralIncludes property)
  | _ => false
  end.

(** [root.<name>.<marker>] or [root.method(...).<marker>] *)
Definition isSymbolWithMarker (root method : string) (n : node) : bool :=
  match n with
  | MemberExpression _ object property _ =>
      (isMemberOf object root || isCallOf object root method) &&
      identifierIncludes property
  | _ => false
  end.

(** [<call of method>.<marker>] *)
Definition isChainedWithMarker (method : string) (n : node) : bool :=
  match n with
  | MemberExpression _ object property _ =>
      identifierIncludes property && isCallOfMethod object method
  | _ => false
  end.

(** A statement that is the marker alone. *)
Definition isMarkerStatement (n : node) : bool :=
  match n with
  | ExpressionStatement _ expression => identifierIncludes expression
  | _ => false
  end.

(** A statement that is a member access off [root]. *)
Definition isMemberStatement (root : string) (n : node) : bool :=
  match n with
  | ExpressionStatement _ expression => isMemberOf expression root
  | _ => false
  end.

(** Properties of an object, by where the marker sits. *)
Definition hasMarkerKey (item : node) : bool :=
  match item with
  | ObjectProperty _ key _ => identifierIncludes key
  | _ => false
  end.

Definition hasMarkerIdentifierValue (item : node) : bool :=
  match item with
  | ObjectProperty _ _ value => identifierIncludes value
  | _ => false
  end.

Definition hasMarkerTextValue (item : node) : bool :=
  match item with
  | ObjectProperty _ _ value =>
      stringLiteralIncludes value || templateIncludes value
  | _ => false
  end.

(** An object expression one of whose properties satisfies [test]. *)
Definition isObjectWith (test : node -> bool) (n : node) : bool :=
  match n with
  | ObjectExpression _ properties => existsb test properties
  | _ => false
  end.

(** An array one of whose elements is an object with the marker as a
    key. *)
Definition isPipelineWithMarkerStage (n : node) : bool :=
  match n with
  | ArrayExpression _ elements =>
      existsb (fun item => match item with
                           | Some element => isObjectWith hasMarkerKey element
                           | None => false
                           end) elements
  | _ => false
  end.

(** The name a member expression gives for [root]: [root.name.…],
    [root['name'].…] or [root.method('name').…]. *)
Definition nameUnder (root method : string) (n : node) : option string :=
  match nameOfMemberObject n root with
  | Some name => Some name
  | None => nameOfCallObject n root method
  end.

(** The operator of a stage: the key of a property [name: { … }] when a
    property below it, at any depth, has the marker as its key. *)
Definition stageOperatorOf (item : node) : option string :=
  match item with
  | ObjectProperty _ (Identifier _ name) (ObjectExpression _ _) =>
      if existsb hasMarkerKey (Babel.descendants item)
      then Some name else None
  | _ => None
  end.

(** The properties of the object elements of an array. *)
Definition stageProperties (n : node) : list node :=
  match n with
  | ArrayExpression _ elements =>
      flat_map (fun item => match item with
                            | Some (ObjectExpression _ properties) =>
                                properties
                            | _ => []
                            end) elements
  | _ => []
  end.

(** A check that found a name stores it when the state has the field;
    one that found none leaves the state alone. *)
Definition assign_name (o : option string) (key : string) (this : Visitor)
    : Visitor :=
  match o with
  | Some value => assign_if true key (JStr value) this
  | None => this
  end.

(** The writes of one node, in the order the checks make them: every
    check is a guarded assignment, and the guards of the checks for other
    kinds of node are false. *)
Definition entered (n : node) (this : Visitor) : Visitor :=
  let this :=
    assign_if (isUseCallWithMarker n) "isUseCallExpression" (JBool true)
      this in
  let this :=
    assign_if (isLookupWithMarker "db" "getCollection" n)
      "isCollectionName" (JBool true) this in
  let this :=
    assign_if (isLookupWithMarker "sp" "getProcessor" n)
      "isStreamProcessorName" (JBool true) this in
  let this :=
    assign_name (databaseNameBeforeSelection n this) "databaseName" this in
  let this :=
    assign_if (isChainedWithMarker "aggregate" n)
      "isAggregationCursor" (JBool true) this in
  let this :=
    assign_if (isChainedWithMarker "find" n) "isFindCursor" (JBool true)
      this in
  let this :=
    assign_if (isSymbolWithMarker "db" "getCollection" n)
      "isCollectionSymbol" (JBool true) this in
  let this :=
    assign_if (isBareMemberWithMarker "db" n) "isCollectionName"
      (JBool true) this in
  let this :=
    assign_name (nameUnder "db" "getCollection" n) "collectionName" this in
  let this :=
    assign_if (isSymbolWithMarker "sp" "getProcessor" n)
      "isStreamProcessorSymbol" (JBool true) this in
  let this := _checkIsStreamProcessorNameAsMemberExpression n this in
  let this :=
    assign_name (nameUnder "sp" "getProcessor" n) "streamProcessorName"
      this in
  let this :=
    assign_if (isMarkerStatement n) "isGlobalSymbol" (JBool true) this in
  let this :=
    assign_if (isMemberStatement "db" n) "isDbSymbol" (JBool true) this in
  let this :=
    assign_if (isMemberStatement "sp" n) "isSpSymbol" (JBool true) this in
  let this :=
    assign_if (isObjectWith hasMarkerKey n) "isObjectKey" (JBool true)
      this in
  let this :=
    assign_if (isObjectWith hasMarkerIdentifierValue n)
      "isIdentifierObjectValue" (JBool true) this in
  let this :=
    assign_if (isObjectWith hasMarkerTextValue n) "isTextObjectValue"
      (JBool true) this in
  let this :=
    assign_if (isPipelineWithMarkerStage n) "isStage" (JBool true) this in
  assign_name (last (omap stageOperatorOf (stageProperties n)))
    "stageOperator" this.

(** ** More sample scripts *)

Module Scripts.

(** [use('|')] *)
Definition use_marker : string := "use('')".
Definition use_marker_injected : string := "use('TRIGGER_CHARACTER')".
Definition use_marker_ast : node :=
  File (span 1 0 1 24)
    (Program (span 1 0 1 24) []
       [ExpressionStatement (span 1 0 1 24)
          (CallExpression (span 1 0 1 24)
             (Identifier (span 1 0 1 3) "use")
             [StringLiteral (span 1 4 1 23) "TRIGGER_CHARACTER"])]).

(** [db.getCollection('|')] *)
Definition get_collection : string := "db.getCollection('')".
Definition get_collection_injected : string :=
  "db.getCollection('TRIGGER_CHARACTER')".
Definition get_collection_ast : node :=
  File (span 1 0 1 37)
    (Program (span 1 0 1 37) []
       [ExpressionStatement (span 1 0 1 37)
          (CallExpression (span 1 0 1 37)
             (MemberExpression (span 1 0 1 16)
                (Identifier (span 1 0 1 2) "db")
                (Identifier (span 1 3 1 16) "getCollection") false)
             [StringLiteral (span 1 17 1 36) "TRIGGER_CHARACTER"])]).

(** [db.coll.|] *)
Definition coll_dot : string := "db.coll.".
Definition coll_dot_injected : string := "db.coll.TRIGGER_CHARACTER".
Definition coll_dot_ast : node :=
  File (span 1 0 1 25)
    (Program (span 1 0 1 25) []
       [ExpressionStatement (span 1 0 1 25)
          (MemberExpression (span 1 0 1 25)
             (MemberExpression (span 1 0 1 7)
                (Identifier (span 1 0 1 2) "db")
                (Identifier (span 1 3 1 7) "coll") false)
             (Identifier (span 1 8 1 25) "TRIGGER_CHARACTER") false)]).

(** [db.coll.aggregate([{ | }])] *)
Definition stage_key : string := "db.coll.aggregate([{  }])".
Definition stage_key_injected : string :=
  "db.coll.aggregate([{ TRIGGER_CHARACTER }])".
Definition stage_key_ast : node :=
  File (span 1 0 1 42)
    (Program (span 1 0 1 42) []
       [ExpressionStatement (span 1 0 1 42)
          (CallExpression (span 1 0 1 42)
             (MemberExpression (span 1 0 1 17)
                (MemberExpression (span 1 0 1 7)
                   (Identifier (span 1 0 1 2) "db")
                   (Identifier (span 1 3 1 7) "coll") false)
                (Identifier (span 1 8 1 17) "aggregate") false)
             [ArrayExpression (span 1 18 1 41)
                [Some (ObjectExpression (span 1 19 1 40)
                   [ObjectProperty (span 1 21 1 38)
                      (Identifier (span 1 21 1 38) "TRIGGER_CHARACTER")
                      (Identifier (span 1 21 1 38)
                         "TRIGGER_CHARACTER")])]])]).

(** [sp.|] *)
Definition sp_dot : string := "sp.".
Definition sp_dot_injected : string := "sp.TRIGGER_CHARACTER".
Definition sp_dot_ast : node :=
  File (span 1 0 1 20)
    (Program (span 1 0 1 20) []
       [ExpressionStatement (span 1 0 1 20)
          (MemberExpression (span 1 0 1 20)
             (Identifier (span 1 0 1 2) "sp")
             (Identifier (span 1 3 1 20) "TRIGGER_CHARACTER") false)]).

(** [sp.proc.|] *)
Definition proc_dot : string := "sp.proc.".
Definition proc_dot_injected : string := "sp.proc.TRIGGER_CHARACTER".
Definition proc_dot_ast : node :=
  File (span 1 0 1 25)
    (Program (span 1 0 1 25) []
       [ExpressionStatement (span 1 0 1 25)
          (MemberExpression (span 1 0 1 25)
             (MemberExpression (span 1 0 1 7)
                (Identifier (span 1 0 1 2) "sp")
                (Identifier (span 1 3 1 7) "proc") false)
             (Identifier (span 1 8 1 25) "TRIGGER_CHARACTER") false)]).

(** The injected texts of the first samples. *)
Definition db_dot_injected : string := "db.TRIGGER_CHARACTER".
Definition find_dot_injected : string := "db.coll.find({}).TRIGGER_CHARACTER".
Definition match_stage_injected : string :=
  "db.coll.aggregate([{ $match: { TRIGGER_CHARACTER } }])".

(** A visitor for namespace extraction: a state of two fields. *)
Definition namespace_visitor : Visitor :=
  {| _state := {[ "databaseName" := JNull; "collectionName" := JNull ]};
     _selection := _selection constructor |}.

End Scripts.

Import Scripts.

(** Document order on editor positions. *)
Definition before_or_at (p q : Position) : Prop :=
  line p < line q \/ (line p = line q /\ character p <= character q).

(** The visitor with another selection. *)
Definition with_selection (selection : VisitorSelection) (this : Visitor)
    : Visitor :=
  {| _state := _state this; _selection := selection |}.

(** Two states that agree on every field but one. *)
Definition agree_except (field : string) (m m' : gmap string jsval) : Prop :=
  forall key, key <> field -> m !! key = m' !! key.

(** ** Display names of documents (src/editors/editorsController.ts) *)

(** A digit of [toString(16)]. *)
Definition hex_digit (n : N) : ascii :=
  if (n <? 10)%N then ascii_of_N (48 + n) else ascii_of_N (87 + n).

(** [n.toString(16)] for a code unit below 256, the code units of this
    model. *)
Definition toString16 (n : N) : string :=
  if (n <? 16)%N then String (hex_digit n) EmptyString
  else String (hex_digit (n / 16)) (String (hex_digit (n mod 16)) EmptyString).

(** The characters that [/[\\/%]/] matches. *)
Definition isSpecialUriCharacter (c : ascii) : bool :=
  Ascii.eqb c "\" || Ascii.eqb c "/" || Ascii.eqb c "%".

(** [s.replace(/[\\/%]/gi, c => `%${c.charCodeAt(0).toString(16)}`)] *)
Fixpoint escapeSpecialUriCharacters (s : string) : string :=
  match s with
  | EmptyString => EmptyString
  | String c s' =>
      (if isSpecialUriCharacter c
       then String "%" (toString16 (N_of_ascii c))
       else String c EmptyString) +:+ escapeSpecialUriCharacters s'
  end.

(** [documentId] stands for [EJSON.stringify(documentId)], the text the
    serializer returns. *)
Definition getFileDisplayNameForDocument (documentId namespace : string)
    : string :=
  let displayName := namespace +:+ ":" +:+ documentId in
  let displayName := escapeSpecialUriCharacters displayName in
  if (200 <? String.length displayName)%nat
  then substring 0 200 displayName else displayName.

(** The value of a hexadecimal digit. *)
Definition hex_value (c : ascii) : N :=
  if (N_of_ascii c <? 58)%N then N_of_ascii c - 48 else N_of_ascii c - 87.

(** Reading an escaped name back, [%xy] standing for the code unit [xy]:
    the inverse that shows escaping loses nothing. *)
Fixpoint unescapeSpecialUriCharacters (s : string) : string :=
  match s with
  | EmptyString => EmptyString
  | String c rest =>
      if Ascii.eqb c "%" then
        match rest with
        | String x (String y rest') =>
            String (ascii_of_N (16 * hex_value x + hex_value y))
              (unescapeSpecialUriCharacters rest')
        | _ => String c (unescapeSpecialUriCharacters rest)
        end
      else String c (unescapeSpecialUriCharacters rest)
  end.

(** Every code unit of a string passes a test. *)
Fixpoint string_forall (test : ascii -> bool) (s : string) : bool :=
  match s with
  | EmptyString => true
  | String c s' => test c && string_forall test s'
  end.

(** Neither a slash nor a backslash. *)
Definition notSlash (c : ascii) : bool :=
  negb (Ascii.eqb c "/" || Ascii.eqb c "\").

(** * Properties *)

(** ** Lines of text *)

Lemma split_not_nil s : split s <> [].
Proof.
  destruct s as [|c s]; simpl; [done|].
  destruct (Ascii.eqb c nl); [done|]. by destruct (split s).
Qed.

Lemma split_no_nl s : Forall no_nl (split s).
Proof.
  induction s as [|c s IH]; simpl.
  - by repeat constructor.
  - destruct (Ascii.eqb c nl) eqn:E.
    + by constructor.
    + destruct (split s) as [|l ls].
      * by repeat constructor.
      * inversion IH; subst. by constructor.
Qed.

Lemma split_line l : no_nl l -> split l = [l].
Proof.
  induction l as [|c l IH]; simpl; [done|].
  intros [-> H]. by rewrite (IH H).
Qed.

Lemma split_cons_line l s :
  no_nl l -> split (l +:+ String nl s) = l :: split s.
Proof.
  induction l as [|c l IH]; simpl.
  - done.
  - intros [-> H]. by rewrite (IH H).
Qed.

Lemma split_join ls : ls <> [] -> Forall no_nl ls -> split (join ls) = ls.
Proof.
  induction ls as [|l ls IH]; [done|].
  intros _ H. inversion H as [|? ? Hl Hls]; subst.
  destruct ls as [|l' ls].
  - by apply split_line.
  - change (join (l :: l' :: ls)) with (l +:+ String nl (join (l' :: ls))).
    rewrite split_cons_line by done. by rewrite IH.
Qed.

Lemma no_nl_app a b : no_nl a -> no_nl b -> no_nl (a +:+ b).
Proof. induction a; simpl; [done|]. intros [? ?] ?. auto. Qed.

Lemma no_nl_substring n m s : no_nl s -> no_nl (substring n m s).
Proof.
  revert n m. induction s as [|c s IH]; intros n m H.
  - by destruct n, m.
  - destruct H as [Hc Hs]. destruct n, m; simpl; auto.
Qed.

Lemma no_nl_slice s b e : no_nl s -> no_nl (slice s b e).
Proof. apply no_nl_substring. Qed.

Lemma no_nl_PLACEHOLDER : no_nl PLACEHOLDER.
Proof. repeat split. Qed.

Lemma array_get_in_range (a : list string) i :
  0 <= i < Z.of_nat (length a) ->
  exists l, a !! Z.to_nat i = Some l /\ array_get a i = Some l.
Proof.
  intros H. unfold array_get.
  destruct (i <? 0) eqn:E; [lia|].
  destruct (lookup_lt_is_Some_2 a (Z.to_nat i)) as [l Hl]; [lia|]. eauto.
Qed.

Lemma array_set_in_range (a : list string) i x :
  0 <= i < Z.of_nat (length a) -> array_set a i x = <[Z.to_nat i := x]> a.
Proof.
  intros H. unfold array_set.
  destruct (i <? 0) eqn:E; [lia|].
  destruct (Z.to_nat i <? length a)%nat eqn:E'; [done|].
  apply Nat.ltb_ge in E'. lia.
Qed.

Lemma handleTriggerCharacter_in_range text position :
  0 <= line position < Z.of_nat (length (split text)) ->
  exists l prefix postfix,
    split text !! Z.to_nat (line position) = Some l /\
    no_nl prefix /\ no_nl postfix /\
    (character position = 0 -> prefix = EmptyString /\ postfix = l) /\
    _handleTriggerCharacter text position =
      Ok (join (<[Z.to_nat (line position) :=
                   prefix +:+ PLACEHOLDER +:+ postfix]> (split text))).
Proof.
  intros H. unfold _handleTriggerCharacter. cbv zeta.
  destruct (array_get_in_range _ _ H) as (l & Hl & ->).
  assert (no_nl l) as Hnl.
  { eapply Forall_lookup_1; [apply split_no_nl | exact Hl]. }
  destruct (character position =? 0) eqn:E;
    cbv iota beta; rewrite array_set_in_range by done.
  - exists l, EmptyString, l. by repeat split.
  - exists l, (slice l 0 (character position)),
      (slice_from l (character position)).
    split; [done|]. split; [by apply no_nl_slice|].
    split; [by apply no_nl_slice|]. split; [lia|done].
Qed.

(** Claim C5.  For a cursor on a line of the text, the injector returns
    a text with the same number of lines in which every line but the
    cursor's is the line of the input; at character 0 the cursor's line
    becomes the marker followed by the whole original line. *)
Theorem handleTriggerCharacter_frame text position :
  0 <= line position < Z.of_nat (length (split text)) ->
  exists out,
    _handleTriggerCharacter text position = Ok out /\
    length (split out) = length (split text) /\
    (forall i : nat, i <> Z.to_nat (line position) ->
       split out !! i = split text !! i) /\
    (character position = 0 ->
     exists l, split text !! Z.to_nat (line position) = Some l /\
       split out !! Z.to_nat (line position) = Some (PLACEHOLDER +:+ l)).
Proof.
  intros H.
  destruct (handleTriggerCharacter_in_range _ _ H)
    as (l & prefix & postfix & Hl & Hpre & Hpost & H0 & ->).
  eexists; split; [reflexivity|].
  rewrite split_join.
  - split; [apply length_insert|]. split.
    + intros i Hi. by apply list_lookup_insert_ne.
    + intros Hc. destruct (H0 Hc) as [-> ->]. exists l. split; [done|].
      apply list_lookup_insert_eq. lia.
  - intros Hnil. apply (f_equal length) in Hnil.
    rewrite length_insert in Hnil. simpl in Hnil. lia.
  - apply Forall_insert; [apply split_no_nl|].
    auto using no_nl_app, no_nl_PLACEHOLDER.
Qed.

Lemma handleTriggerCharacter_frame_witness :
  0 <= line (at_ 1 0) <
    Z.of_nat (length (split two_uses)) /\
  exists out,
    _handleTriggerCharacter two_uses (at_ 1 0) = Ok out /\
    split out !! 0%nat = Some "use('db')" /\
    split out !! 1%nat = Some (PLACEHOLDER +:+ "use('db2')").
Proof.
  assert (0 <= line (at_ 1 0) <
            Z.of_nat (length (split two_uses))) as Hrange.
  { simpl. lia. }
  split; [exact Hrange|].
  destruct (handleTriggerCharacter_frame two_uses (at_ 1 0)
              Hrange) as (out & Hout & _ & Hother & Hzero).
  exists out. split; [exact Hout|]. split.
  - rewrite (Hother 0%nat) by discriminate. reflexivity.
  - destruct (Hzero eq_refl) as (l & Hl & Hline).
    vm_compute in Hl. injection Hl as <-. exact Hline.
Defined.

(** ** The footprint of the checks *)

Create HintDb visitor discriminated.

#[local] Hint Unfold
  _visitCallExpression _visitMemberExpression _visitExpressionStatement
  _visitObjectExpression _visitArrayExpression enterStage
  _checkIsUseCallAsSimpleString _checkIsUseCallAsTemplate
  _checkIsUseCall _checkIsGlobalSymbol _checkIsDbSymbol
  _checkIsSpSymbol _checkIsObjectKey _checkIsIdentifierObjectValue
  _checkIsTextObjectValue _checkIsStage _checkIsStageOperator
  _checkIsCollectionNameAsMemberExpression
  _checkGetCollectionAsSimpleString _checkGetCollectionAsTemplate
  _checkIsCollectionNameAsCallExpression _checkHasAggregationCall
  _checkHasFindCall _checkHasDatabaseName
  _checkHasCollectionNameMemberExpression
  _checkHasCollectionNameCallExpression _checkHasCollectionName
  _checkIsCollectionMemberExpression _checkIsCollectionCallExpression
  _checkIsCollectionSymbol _checkIsStreamProcessorNameAsMemberExpression
  _checkIsStreamProcessorNameAsCallExpression
  _checkGetStreamProcessorAsSimpleString
  _checkGetStreamProcessorAsTemplate _checkHasStreamProcessorName
  _checkHasStreamProcessorNameMemberExpression
  _checkHasStreamProcessorNameCallExpression
  _checkIsStreamProcessorSymbol _checkIsStreamProcessorMemberExpression
  _checkIsStreamProcessorCallExpression : visitor.

Lemma assign_if_false key v this : assign_if false key v this = this.
Proof. reflexivity. Qed.

(** Evaluates the shape tests of the checks on a node whose constructors
    are known. *)
Ltac shapes :=
  cbn [isIdentifier isMemberOf isMethodOf isCallOf isCallOfMethod
       nameOfMemberObject nameOfCallObject identifierIncludes
       stringLiteralIncludes templateIncludes
       String.eqb Ascii.eqb Bool.eqb andb orb negb];
  rewrite ?andb_false_r, ?andb_true_r, ?assign_if_false.

Ltac member_checks :=
  unfold _visitMemberExpression, _checkHasAggregationCall, _checkHasFindCall,
    _checkIsCollectionSymbol, _checkIsCollectionMemberExpression,
    _checkIsCollectionCallExpression,
    _checkIsCollectionNameAsMemberExpression, _checkHasCollectionName,
    _checkHasCollectionNameMemberExpression,
    _checkHasCollectionNameCallExpression, _checkIsStreamProcessorSymbol,
    _checkIsStreamProcessorMemberExpression,
    _checkIsStreamProcessorCallExpression,
    _checkIsStreamProcessorNameAsMemberExpression,
    _checkHasStreamProcessorName,
    _checkHasStreamProcessorNameMemberExpression,
    _checkHasStreamProcessorNameCallExpression.

Lemma in_state_true key this :
  in_state key this = true <-> is_Some (_state this !! key).
Proof.
  unfold in_state. destruct (_state this !! key); split; done.
Qed.

Section Footprint.
Variable allowed : string -> jsval -> Prop.

Lemma touched_refl this : touched allowed this this.
Proof. split; [done|]. by left. Qed.

Lemma touched_trans this1 this2 this3 :
  touched allowed this1 this2 -> touched allowed this2 this3 ->
  touched allowed this1 this3.
Proof.
  intros [Hs1 H1] [Hs2 H2]. split; [congruence|].
  intros key. destruct (H2 key) as [->|?]; [apply H1 | by right].
Qed.

Lemma touched_set_state key v this this' :
  allowed key v -> touched allowed this this' ->
  touched allowed this (set_state key v this').
Proof.
  intros Hv H. apply (touched_trans _ _ _ H). split; [done|].
  intros key'. simpl. destruct (decide (key = key')) as [<-|Hne].
  - right. exists v. by rewrite lookup_insert_eq.
  - left. by rewrite lookup_insert_ne.
Qed.

Lemma touched_assign_if cond key v this this' :
  allowed key v -> touched allowed this this' ->
  touched allowed this (assign_if cond key v this').
Proof.
  intros Hv H. unfold assign_if.
  destruct (cond && in_state key this'); [by apply touched_set_state | done].
Qed.

Lemma touched_fold {A} (f : A -> Visitor -> Visitor) items this this' :
  (forall item this', touched allowed this this' ->
     touched allowed this (f item this')) ->
  touched allowed this this' ->
  touched allowed this (fold_left (fun this item => f item this) items this').
Proof.
  intros Hf. revert this'.
  induction items as [|item items IH]; intros this' H; simpl; auto.
Qed.

Lemma touched_traverse ast enter this this' :
  (forall n this', touched allowed this this' ->
     touched allowed this (enter n this')) ->
  touched allowed this this' ->
  touched allowed this (Babel.traverse ast enter this').
Proof.
  intros Hf H. destruct ast as [p|]; simpl; [|done].
  by apply touched_fold.
Qed.

Hypothesis flags :
  forall key, key ∈ boolean_fields -> allowed key (JBool true).
Hypothesis names : forall key s,
  key ∈ ["collectionName"; "streamProcessorName"; "stageOperator"] ->
  allowed key (JStr s).

Ltac allow :=
  first [ solve [auto]
        | apply flags; apply (bool_decide_unpack _); vm_compute; exact I
        | apply names; apply (bool_decide_unpack _); vm_compute; exact I ].

Ltac touch :=
  repeat first
    [ assumption
    | apply touched_refl
    | apply touched_assign_if; [allow|]
    | apply touched_set_state; [allow|]
    | apply touched_fold; [intros ? ? ?|]
    | apply touched_traverse; [intros ? ? ?|]
    | match goal with
      | |- touched _ _ (match ?x with _ => _ end) => destruct x
      end ].

Lemma touched_visitCallExpression path this this' :
  (forall s, allowed "databaseName" (JStr s)) ->
  touched allowed this this' ->
  touched allowed this (_visitCallExpression path this').
Proof. intros Hdb H. autounfold with visitor. touch. Qed.

Lemma touched_visitMemberExpression path this this' :
  touched allowed this this' ->
  touched allowed this (_visitMemberExpression path this').
Proof. intros H. autounfold with visitor. touch. Qed.

Lemma touched_visitExpressionStatement path this this' :
  touched allowed this this' ->
  touched allowed this (_visitExpressionStatement path this').
Proof. intros H. autounfold with visitor. touch. Qed.

Lemma touched_visitObjectExpression path this this' :
  touched allowed this this' ->
  touched allowed this (_visitObjectExpression path this').
Proof. intros H. autounfold with visitor. touch. Qed.

Lemma touched_visitArrayExpression path this this' :
  touched allowed this this' ->
  touched allowed this (_visitArrayExpression path this').
Proof. intros H. autounfold with visitor. touch. Qed.

Lemma touched_callChecks path this this' :
  touched allowed this this' ->
  touched allowed this
    (_checkIsStreamProcessorNameAsCallExpression path
       (_checkIsCollectionNameAsCallExpression path
          (_checkIsUseCall path this'))).
Proof. intros H. autounfold with visitor. touch. Qed.

Lemma touched_afterFindCall path this this' :
  touched allowed this this' ->
  touched allowed this
    (_checkHasStreamProcessorName path
       (_checkIsStreamProcessorNameAsMemberExpression path
          (_checkIsStreamProcessorSymbol path
             (_checkHasCollectionName path
                (_checkIsCollectionNameAsMemberExpression path
                   (_checkIsCollectionSymbol path this')))))).
Proof. intros H. autounfold with visitor. touch. Qed.

Lemma touched_checkHasFindCall path this this' :
  touched allowed this this' ->
  touched allowed this (_checkHasFindCall path this').
Proof. intros H. autounfold with visitor. touch. Qed.

Lemma touched_checkHasAggregationCall path this this' :
  touched allowed this this' ->
  touched allowed this (_checkHasAggregationCall path this').
Proof. intros H. autounfold with visitor. touch. Qed.

Lemma touched_enter path this this' :
  (forall s, allowed "databaseName" (JStr s)) ->
  touched allowed this this' -> touched allowed this (enter path this').
Proof.
  intros Hdb H. unfold enter.
  by apply touched_visitArrayExpression, touched_visitObjectExpression,
    touched_visitExpressionStatement, touched_visitMemberExpression,
    touched_visitCallExpression.
Qed.

Lemma touched_checks :
  (forall s, allowed "databaseName" (JStr s)) ->
  Forall (fun check => forall path this, touched allowed this (check path this))
    checks.
Proof.
  intros Hdb. unfold checks.
  repeat (constructor; [intros path this; autounfold with visitor; touch|]).
  constructor.
Qed.

End Footprint.

(** ** Flags only go up *)

Lemma fields_disjoint key :
  key ∈ boolean_fields -> key ∈ string_fields -> False.
Proof.
  intros Hb Hs. unfold string_fields in Hs. rewrite !elem_of_cons in Hs.
  destruct Hs as [->|[->|[->|[->|Hs]]]]; [..|by apply elem_of_nil in Hs];
    apply (bool_decide_pack _) in Hb; vm_compute in Hb; exact Hb.
Qed.

Lemma name_fields_strings key : key ∈ name_fields -> key ∈ string_fields.
Proof.
  unfold name_fields, string_fields. rewrite !elem_of_cons, !elem_of_nil.
  tauto.
Qed.

Lemma flag_or_string_flag key :
  key ∈ boolean_fields -> flag_or_string key (JBool true).
Proof. by left. Qed.

Lemma flag_or_string_name key s :
  key ∈ ["collectionName"; "streamProcessorName"; "stageOperator"] ->
  flag_or_string key (JStr s).
Proof.
  intros H. right. split; [|by eexists]. revert H.
  unfold string_fields. rewrite !elem_of_cons, !elem_of_nil. tauto.
Qed.

Lemma flag_or_string_databaseName s : flag_or_string "databaseName" (JStr s).
Proof. right. split; [|by eexists]. by left. Qed.

Lemma touched_monotonic this this' :
  touched flag_or_string this this' -> monotonic (_state this) (_state this').
Proof.
  intros [_ H]. repeat split.
  - intros key Hkey.
    destruct (H key) as [?|(v & [[_ ->]|[Hs _]] & Hv)]; auto.
    destruct (fields_disjoint key Hkey Hs).
  - intros key Hkey Hbefore.
    destruct (H key) as [?|(v & [[_ ->]|[Hs _]] & Hv)]; [congruence|done|].
    destruct (fields_disjoint key Hkey Hs).
  - intros key s Hkey Hbefore.
    destruct (H key) as [?|(v & [[Hb _]|[_ [s' ->]]] & Hv)].
    + exists s. congruence.
    + destruct (fields_disjoint key Hb (name_fields_strings key Hkey)).
    + by exists s'.
Qed.

Lemma walk_touched nodes this :
  touched flag_or_string this
    (fold_left (fun this path => enter path this) nodes this).
Proof.
  apply touched_fold; [|apply touched_refl].
  intros path this' H.
  apply touched_enter; auto using flag_or_string_flag, flag_or_string_name,
    flag_or_string_databaseName.
Qed.

(** Claim C7.  Flags only go up and names are never lost: every check of
    the visitor, run on any node from any state, leaves each boolean
    field as it was or sets it to [true], keeps a [true] flag [true], and
    leaves a string in [databaseName], [collectionName] and
    [streamProcessorName] wherever one was stored (a later match may
    store another string, never [null]); and the same holds between the
    state before and the state after any run of nodes entered by the
    walk. *)
Theorem completion_state_monotonic :
  (forall check, check ∈ checks ->
     forall path this, monotonic (_state this) (_state (check path this))) /\
  (forall nodes this,
     monotonic (_state this)
       (_state (fold_left (fun this path => enter path this) nodes this))).
Proof.
  split.
  - intros check Hcheck path this. apply touched_monotonic.
    pose proof (touched_checks flag_or_string flag_or_string_flag
      flag_or_string_name flag_or_string_databaseName) as H.
    rewrite Forall_forall in H. by apply H.
  - intros nodes this. apply touched_monotonic, walk_touched.
Qed.

Lemma completion_state_monotonic_witness :
  let path :=
    MemberExpression None
      (CallExpression None
         (MemberExpression None (Identifier None "cursor")
            (Identifier None "find") false) [])
      (Identifier None "TRIGGER_CHARACTER") false in
  let this := {| _state := _getDefaultsForCompletion;
                 _selection := _selection constructor |} in
  _checkHasFindCall ∈ checks /\
  monotonic (_state this) (_state (_checkHasFindCall path this)) /\
  monotonic (_state this) (_state (enter path this)).
Proof.
  intros path this.
  assert (_checkHasFindCall ∈ checks) as Hin.
  { do 16 apply list_elem_of_further. apply list_elem_of_here. }
  split; [exact Hin|]. split.
  - exact (proj1 completion_state_monotonic _ Hin path this).
  - exact (proj2 completion_state_monotonic [path] this).
Defined.

Lemma touched_is_Some allowed this this' key :
  touched allowed this this' ->
  is_Some (_state this !! key) -> is_Some (_state this' !! key).
Proof.
  intros [_ H] Hin. destruct (H key) as [->|(v & _ & ->)]; [done|by eexists].
Qed.

Lemma touched_flag_kept this this' key :
  touched flag_or_string this this' -> key ∈ boolean_fields ->
  _state this !! key = Some (JBool true) ->
  _state this' !! key = Some (JBool true).
Proof.
  intros H Hkey. apply touched_monotonic in H as (_ & H & _). by apply H.
Qed.

(** ** Entry through the parser *)

Lemma parseASTForCompletion_parsed parse text position injected ast this :
  _handleTriggerCharacter text position = Ok injected ->
  parse injected = Some ast ->
  exists this',
    this' = fold_left (fun this path => enter path this)
              (Babel.descendants ast)
              {| _state := _getDefaultsForCompletion;
                 _selection :=
                   {| start := position;
                      end_ := {| line := 0; character := 0 |} |} |} /\
    parseASTForCompletion parse text position this = (Ok (_state this'), this').
Proof.
  intros Hinject Hparse. eexists. split; [reflexivity|].
  unfold parseASTForCompletion, parseAST. rewrite Hinject. cbv zeta.
  by rewrite Hparse.
Qed.

(** ** The database name *)

Lemma touched_other_than field this this' :
  touched (other_than field) this this' ->
  _selection this' = _selection this /\
  _state this' !! field = _state this !! field.
Proof.
  intros [Hs H]. split; [done|].
  by destruct (H field) as [?|(v & Hv & _)].
Qed.

Lemma other_than_databaseName_flag key :
  key ∈ boolean_fields -> other_than "databaseName" key (JBool true).
Proof.
  intros H ->. apply (bool_decide_pack _) in H. vm_compute in H. exact H.
Qed.

Lemma other_than_databaseName_name key s :
  key ∈ ["collectionName"; "streamProcessorName"; "stageOperator"] ->
  other_than "databaseName" key (JStr s).
Proof.
  intros H ->. apply (bool_decide_pack _) in H. vm_compute in H. exact H.
Qed.

Lemma endsBeforeSelection_spec loc this :
  endsBeforeSelection loc this = true <->
  ends_before_cursor loc (start (_selection this)).
Proof.
  unfold endsBeforeSelection, ends_before_cursor.
  rewrite orb_true_iff, andb_true_iff, Z.gtb_lt, Z.eqb_eq, Z.geb_le. lia.
Qed.

Lemma databaseNameBeforeSelection_spec path this :
  databaseNameBeforeSelection path this =
  use_literal_before (start (_selection this)) path.
Proof.
  destruct path as [| | |loc callee arguments| | | | | | | | |]; try done.
  destruct loc as [loc|]; [|done].
  destruct arguments as [|argument rest]; [by destruct callee|].
  destruct argument; try by destruct callee, rest.
  destruct rest; [|by destruct callee]. simpl.
  destruct callee; try done. simpl.
  pose proof (endsBeforeSelection_spec loc this) as Hends.
  destruct (String.eqb_spec name "use") as [->|Hne];
    destruct (endsBeforeSelection loc this); simpl;
    case_bool_decide as Hd; try done; exfalso.
  - apply Hd. split; [done|]. by apply Hends.
  - destruct Hd as [_ Hd]. by apply Hends in Hd.
  - by destruct Hd.
  - by destruct Hd.
Qed.

Lemma enter_databaseName path this :
  is_Some (_state this !! "databaseName") ->
  _selection (enter path this) = _selection this /\
  _state (enter path this) !! "databaseName" =
    match use_literal_before (start (_selection this)) path with
    | Some value => Some (JStr value)
    | None => _state this !! "databaseName"
    end.
Proof.
  intros Hin.
  pose (after_calls := _visitCallExpression path this).
  assert (touched (other_than "databaseName") after_calls (enter path this))
    as Hrest.
  { unfold enter.
    apply touched_visitArrayExpression, touched_visitObjectExpression,
      touched_visitExpressionStatement, touched_visitMemberExpression;
      auto using other_than_databaseName_flag,
        other_than_databaseName_name, touched_refl. }
  apply touched_other_than in Hrest as [-> ->]. subst after_calls.
  rewrite <- databaseNameBeforeSelection_spec.
  destruct path as [| | |loc callee arguments| | | | | | | | |]; try done.
  unfold _visitCallExpression.
  set (checked := _checkIsStreamProcessorNameAsCallExpression _ _).
  assert (touched (other_than "databaseName") this checked) as Hcalls.
  { apply touched_callChecks; auto using other_than_databaseName_flag,
      other_than_databaseName_name, touched_refl. }
  apply touched_other_than in Hcalls as [Hsel Hdb].
  unfold _checkHasDatabaseName.
  assert (databaseNameBeforeSelection (CallExpression loc callee arguments)
            checked =
          databaseNameBeforeSelection (CallExpression loc callee arguments)
            this) as ->.
  { unfold databaseNameBeforeSelection, endsBeforeSelection.
    by rewrite Hsel. }
  destruct (databaseNameBeforeSelection _ this) as [value|]; [|done].
  unfold assign_if. rewrite <- Hdb in Hin.
  apply in_state_true in Hin as ->. simpl.
  split; [done|]. apply lookup_insert_eq.
Qed.

Lemma walk_databaseName nodes this :
  is_Some (_state this !! "databaseName") ->
  _state (fold_left (fun this path => enter path this) nodes this)
    !! "databaseName" =
    match last (omap (use_literal_before (start (_selection this))) nodes) with
    | Some value => Some (JStr value)
    | None => _state this !! "databaseName"
    end.
Proof.
  revert this. induction nodes as [|path nodes IH]; intros this Hin; [done|].
  destruct (enter_databaseName path this Hin) as [Hsel Hdb].
  simpl fold_left. rewrite IH; [|rewrite Hdb; by destruct use_literal_before].
  rewrite Hsel, Hdb. simpl omap.
  destruct (use_literal_before _ path) as [value|]; [|done].
  rewrite last_cons. by destruct (last _).
Qed.

(** Claim C4.  Whenever the marker-injected text parses, the
    [databaseName] of the completion state is the argument of the last
    [use('literal')] call, in source order, whose end lies on a line
    before the cursor's or on the cursor's line at or before the cursor's
    character; it is [null] when no call qualifies. *)
Theorem databaseName_is_last_use_before_cursor
    parse text position injected ast this :
  _handleTriggerCharacter text position = Ok injected ->
  parse injected = Some ast ->
  exists state this',
    parseASTForCompletion parse text position this = (Ok state, this') /\
    state !! "databaseName" =
      Some match last_use_before position ast with
           | Some value => JStr value
           | None => JNull
           end.
Proof.
  intros Hinject Hparse.
  destruct (parseASTForCompletion_parsed _ _ _ _ _ this Hinject Hparse)
    as (this' & -> & ->).
  eexists _, _. split; [reflexivity|].
  rewrite walk_databaseName by (by eexists). unfold last_use_before.
  cbn [_selection start _state].
  change (_getDefaultsForCompletion !! "databaseName") with (Some JNull).
  by destruct (last _).
Qed.

Lemma databaseName_is_last_use_before_cursor_witness :
  _handleTriggerCharacter two_uses (at_ 2 0) = Ok two_uses_injected /\
  parses two_uses_injected two_uses_ast two_uses_injected = Some two_uses_ast /\
  exists state this',
    parseASTForCompletion (parses two_uses_injected two_uses_ast)
      two_uses (at_ 2 0) constructor = (Ok state, this') /\
    state !! "databaseName" = Some (JStr "db2").
Proof.
  split; [reflexivity|]. split; [reflexivity|].
  exact (databaseName_is_last_use_before_cursor
           (parses two_uses_injected two_uses_ast) two_uses (at_ 2 0)
           two_uses_injected two_uses_ast constructor eq_refl eq_refl).
Defined.

(** ** Cursor methods *)

(** A flag raised by the visit of one node of the walk is up at the end of
    the walk. *)
Lemma walk_flag (fires : node -> Prop) key nodes path this :
  (forall this, fires path -> is_Some (_state this !! key) ->
     _state (enter path this) !! key = Some (JBool true)) ->
  key ∈ boolean_fields -> path ∈ nodes -> fires path ->
  is_Some (_state this !! key) ->
  _state (fold_left (fun this path => enter path this) nodes this) !! key =
    Some (JBool true).
Proof.
  intros Hfires Hkey Hin Hpath Hsome.
  apply list_elem_of_split in Hin as (before & after & ->).
  rewrite fold_left_app. simpl.
  apply (touched_flag_kept _ _ _ (walk_touched after _) Hkey).
  apply Hfires; [done|].
  by apply (touched_is_Some _ _ _ _ (walk_touched before this)).
Qed.

Lemma enter_chained_off_find path this :
  chained_off_call "find" path ->
  is_Some (_state this !! "isFindCursor") ->
  _state (enter path this) !! "isFindCursor" = Some (JBool true).
Proof.
  intros (loc & loc1 & loc2 & loc3 & loc4 & object & arguments & name &
          computed & -> & Hname) Hin.
  match goal with |- _state (enter ?p _) !! _ = _ =>
    change (enter p this) with (_visitMemberExpression p this);
    set (path := p) end.
  unfold _visitMemberExpression. fold path.
  set (aggregated := _checkHasAggregationCall path this).
  assert (touched flag_or_string this aggregated) as Hagg.
  { apply touched_checkHasAggregationCall;
      auto using flag_or_string_flag, flag_or_string_name, touched_refl. }
  apply (touched_is_Some _ _ _ _ Hagg) in Hin.
  eapply touched_flag_kept.
  - apply touched_afterFindCall;
      auto using flag_or_string_flag, flag_or_string_name, touched_refl.
  - apply (bool_decide_unpack _). by vm_compute.
  - unfold _checkHasFindCall, path. shapes. unfold assign_if.
    rewrite Hname. apply in_state_true in Hin as ->.
    apply lookup_insert_eq.
Qed.

Lemma enter_chained_off_aggregate path this :
  chained_off_call "aggregate" path ->
  is_Some (_state this !! "isAggregationCursor") ->
  _state (enter path this) !! "isAggregationCursor" = Some (JBool true).
Proof.
  intros (loc & loc1 & loc2 & loc3 & loc4 & object & arguments & name &
          computed & -> & Hname) Hin.
  match goal with |- _state (enter ?p _) !! _ = _ =>
    change (enter p this) with (_visitMemberExpression p this);
    set (path := p) end.
  unfold _visitMemberExpression. fold path.
  eapply touched_flag_kept.
  - apply touched_afterFindCall, touched_checkHasFindCall;
      auto using flag_or_string_flag, flag_or_string_name, touched_refl.
  - apply (bool_decide_unpack _). by vm_compute.
  - unfold _checkHasAggregationCall, path. shapes. unfold assign_if.
    rewrite Hname. apply in_state_true in Hin as ->.
    apply lookup_insert_eq.
Qed.

(** Claim C6.  When the walk enters a member expression whose object is a
    call with a non-computed member callee named [find] (respectively
    [aggregate]) and whose own property name contains the marker, the
    completion state has [isFindCursor] (respectively
    [isAggregationCursor]) set to [true]. *)
Theorem cursor_flags_of_chained_member
    parse text position injected ast this path :
  _handleTriggerCharacter text position = Ok injected ->
  parse injected = Some ast ->
  path ∈ Babel.descendants ast ->
  exists state this',
    parseASTForCompletion parse text position this = (Ok state, this') /\
    (chained_off_call "find" path ->
       state !! "isFindCursor" = Some (JBool true)) /\
    (chained_off_call "aggregate" path ->
       state !! "isAggregationCursor" = Some (JBool true)).
Proof.
  intros Hinject Hparse Hpath.
  destruct (parseASTForCompletion_parsed _ _ _ _ _ this Hinject Hparse)
    as (this' & -> & ->).
  eexists _, _. split; [reflexivity|]. split; intros Hchain.
  - apply (walk_flag (chained_off_call "find") _ _ path);
      [ intros; by apply enter_chained_off_find
      | apply (bool_decide_unpack _); by vm_compute
      | done | done | by eexists ].
  - apply (walk_flag (chained_off_call "aggregate") _ _ path);
      [ intros; by apply enter_chained_off_aggregate
      | apply (bool_decide_unpack _); by vm_compute
      | done | done | by eexists ].
Qed.

Lemma cursor_flags_of_chained_member_witness :
  exists state this',
    parseASTForCompletion
      (parses "db.coll.find({}).TRIGGER_CHARACTER" find_dot_ast)
      find_dot (at_ 0 17) constructor = (Ok state, this') /\
    state !! "isFindCursor" = Some (JBool true).
Proof.
  pose (chain :=
    MemberExpression (span 1 0 1 34)
      (CallExpression (span 1 0 1 16)
         (MemberExpression (span 1 0 1 12)
            (MemberExpression (span 1 0 1 7)
               (Identifier (span 1 0 1 2) "db")
               (Identifier (span 1 3 1 7) "coll") false)
            (Identifier (span 1 8 1 12) "find") false)
         [ObjectExpression (span 1 13 1 15) []])
      (Identifier (span 1 17 1 34) "TRIGGER_CHARACTER") false).
  assert (chain ∈ Babel.descendants find_dot_ast) as Hin.
  { do 2 apply list_elem_of_further. apply list_elem_of_here. }
  destruct (cursor_flags_of_chained_member
              (parses "db.coll.find({}).TRIGGER_CHARACTER" find_dot_ast)
              find_dot (at_ 0 17) _ find_dot_ast constructor chain
              eq_refl eq_refl Hin) as (state & this' & Hrun & Hfind & _).
  exists state, this'. split; [exact Hrun|]. apply Hfind.
  unfold chained_off_call, chain. eexists _, _, _, _, _, _, _, _, _.
  split; reflexivity.
Defined.

(** ** Parse failure *)

(** Claim C1.  When the parser rejects the marker-injected text,
    [parseASTForCompletion] returns, without throwing, the defaults: every
    string field, [stageOperator] included, is [null], every flag is
    [false], and there is no other field. *)
Theorem parse_failure_yields_defaults parse text position injected this :
  _handleTriggerCharacter text position = Ok injected ->
  parse injected = None ->
  (exists this',
     parseASTForCompletion parse text position this =
       (Ok _getDefaultsForCompletion, this')) /\
  Forall (fun key => _getDefaultsForCompletion !! key = Some JNull)
    string_fields /\
  Forall (fun key => _getDefaultsForCompletion !! key = Some (JBool false))
    boolean_fields /\
  dom _getDefaultsForCompletion =
    list_to_set (string_fields ++ boolean_fields).
Proof.
  intros Hinject Hparse. split.
  - eexists. unfold parseASTForCompletion, parseAST.
    rewrite Hinject. cbv zeta. rewrite Hparse. reflexivity.
  - split; [|split]; [repeat constructor..|].
    apply (bool_decide_unpack _). by vm_compute.
Qed.

Lemma parse_failure_yields_defaults_witness :
  _handleTriggerCharacter "use(" (at_ 0 4) = Ok "use(TRIGGER_CHARACTER" /\
  rejects "use(TRIGGER_CHARACTER" = None /\
  exists this',
    parseASTForCompletion rejects "use(" (at_ 0 4) constructor =
      (Ok _getDefaultsForCompletion, this').
Proof.
  split; [reflexivity|]. split; [reflexivity|].
  exact (proj1 (parse_failure_yields_defaults rejects "use(" (at_ 0 4)
                  "use(TRIGGER_CHARACTER" constructor eq_refl eq_refl)).
Defined.

(** ** Sample scripts *)

(** Claim C2, as stated, fails on [db.|]: the completion state does not
    have [isCollectionSymbol] set to [true]. *)
Lemma db_dot_is_not_collection_symbol :
  exists state this',
    parseASTForCompletion (parses "db.TRIGGER_CHARACTER" db_dot_ast)
      db_dot (at_ 0 3) constructor = (Ok state, this') /\
    state !! "isCollectionSymbol" <> Some (JBool true).
Proof. eexists _, _. split; [reflexivity|]. by vm_compute. Qed.

(** Claim C2, amended.  On [db.|] the completion state has
    [isCollectionName] and [isDbSymbol] set to [true], and
    [isCollectionSymbol] stays [false]. *)
Theorem db_dot_completes_collection_name parse this :
  parse "db.TRIGGER_CHARACTER" = Some db_dot_ast ->
  exists state this',
    parseASTForCompletion parse db_dot (at_ 0 3) this = (Ok state, this') /\
    state !! "isCollectionName" = Some (JBool true) /\
    state !! "isDbSymbol" = Some (JBool true) /\
    state !! "isCollectionSymbol" = Some (JBool false).
Proof.
  intros Hparse.
  destruct (parseASTForCompletion_parsed parse db_dot (at_ 0 3) _ _ this
              eq_refl Hparse) as (this' & -> & ->).
  eexists _, _. split; [reflexivity|]. by vm_compute.
Qed.

Lemma db_dot_completes_collection_name_witness :
  parses "db.TRIGGER_CHARACTER" db_dot_ast "db.TRIGGER_CHARACTER" =
    Some db_dot_ast /\
  exists state this',
    parseASTForCompletion (parses "db.TRIGGER_CHARACTER" db_dot_ast)
      db_dot (at_ 0 3) constructor = (Ok state, this') /\
    state !! "isCollectionName" = Some (JBool true) /\
    state !! "isDbSymbol" = Some (JBool true) /\
    state !! "isCollectionSymbol" = Some (JBool false).
Proof.
  split; [reflexivity|].
  exact (db_dot_completes_collection_name
           (parses "db.TRIGGER_CHARACTER" db_dot_ast) constructor eq_refl).
Defined.

(** Claim C3, as stated, fails on
    [db.coll.aggregate([{ $match: { | } }])]: the completion state does
    not have [isStage] set to [true]. *)
Lemma match_stage_is_not_stage :
  exists state this',
    parseASTForCompletion
      (parses "db.coll.aggregate([{ $match: { TRIGGER_CHARACTER } }])"
         match_stage_ast)
      match_stage (at_ 0 31) constructor = (Ok state, this') /\
    state !! "isStage" <> Some (JBool true).
Proof. eexists _, _. split; [reflexivity|]. by vm_compute. Qed.

(** Claim C3, amended.  On [db.coll.aggregate([{ $match: { | } }])] the
    completion state has [stageOperator] set to ["$match"] and
    [isObjectKey] set to [true], and [isStage] stays [false]. *)
Theorem match_stage_completes_operator_key parse this :
  parse "db.coll.aggregate([{ $match: { TRIGGER_CHARACTER } }])" =
    Some match_stage_ast ->
  exists state this',
    parseASTForCompletion parse match_stage (at_ 0 31) this =
      (Ok state, this') /\
    state !! "stageOperator" = Some (JStr "$match") /\
    state !! "isObjectKey" = Some (JBool true) /\
    state !! "isStage" = Some (JBool false).
Proof.
  intros Hparse.
  destruct (parseASTForCompletion_parsed parse match_stage (at_ 0 31) _ _ this
              eq_refl Hparse) as (this' & -> & ->).
  eexists _, _. split; [reflexivity|]. by vm_compute.
Qed.

Lemma match_stage_completes_operator_key_witness :
  parses "db.coll.aggregate([{ $match: { TRIGGER_CHARACTER } }])"
    match_stage_ast
    "db.coll.aggregate([{ $match: { TRIGGER_CHARACTER } }])" =
    Some match_stage_ast /\
  exists state this',
    parseASTForCompletion
      (parses "db.coll.aggregate([{ $match: { TRIGGER_CHARACTER } }])"
         match_stage_ast)
      match_stage (at_ 0 31) constructor = (Ok state, this') /\
    state !! "stageOperator" = Some (JStr "$match") /\
    state !! "isObjectKey" = Some (JBool true) /\
    state !! "isStage" = Some (JBool false).
Proof.
  split; [reflexivity|].
  exact (match_stage_completes_operator_key
           (parses "db.coll.aggregate([{ $match: { TRIGGER_CHARACTER } }])"
              match_stage_ast) constructor eq_refl).
Defined.

(** ** Independence of the visitor's past *)

(** Claim C8.  The completion state returned for a text and a position
    does not depend on the visitor the call runs on: two visitors in any
    state return the same result, and so does a second call on the
    visitor the first call left behind. *)
Theorem parseASTForCompletion_deterministic parse text position this1 this2 :
  (parseASTForCompletion parse text position this1).1 =
    (parseASTForCompletion parse text position this2).1 /\
  (parseASTForCompletion parse text position
     (parseASTForCompletion parse text position this1).2).1 =
    (parseASTForCompletion parse text position this1).1.
Proof.
  assert (forall this this',
    (parseASTForCompletion parse text position this).1 =
    (parseASTForCompletion parse text position this').1) as H.
  { intros this this'. unfold parseASTForCompletion.
    by destruct (_handleTriggerCharacter text position). }
  split; apply H.
Qed.

(** ** Selection geometry *)

(** Claim C9.  A node whose location starts or ends at column 0 is never
    within the selection, whatever the selection: the columns are tested
    for truthiness before they are compared. *)
Theorem isWithinSelection_false_at_column_zero path this loc :
  Babel.loc_of path = Some loc ->
  Babel.column (Babel.start loc) = 0 \/ Babel.column (Babel.end_ loc) = 0 ->
  _isWithinSelection path this = false.
Proof.
  intros Hloc Hzero. unfold _isWithinSelection. rewrite Hloc.
  destruct Hzero as [-> | ->]; simpl;
    rewrite ?andb_false_r, ?andb_false_l; reflexivity.
Qed.

Lemma isWithinSelection_false_at_column_zero_witness :
  let braces := ObjectExpression (span 1 0 1 2) [] in
  let selected :=
    {| _state := ∅;
       _selection := {| start := at_ 0 0; end_ := at_ 0 2 |} |} in
  Babel.loc_of braces = span 1 0 1 2 /\
  (0 = 0 \/ 2 = 0) /\
  _isWithinSelection braces selected = false.
Proof.
  split; [reflexivity|]. split; [left; reflexivity|].
  exact (isWithinSelection_false_at_column_zero
           (ObjectExpression (span 1 0 1 2) [])
           {| _state := ∅;
              _selection := {| start := at_ 0 0; end_ := at_ 0 2 |} |}
           _ eq_refl (or_introl eq_refl)).
Defined.


(** ** Member accesses off [sp] and [db] *)

Lemma member_of_bare_marker (property : node) :
  identifierIncludes property = true \/ stringLiteralIncludes property = true ->
  identifierIncludes property || stringLiteralIncludes property = true.
Proof. intros [-> | ->]; [done | apply orb_true_r]. Qed.

(** Claim C10.  Entering a member access off the bare identifier [sp]
    whose property, an identifier or a string literal, carries the marker
    sets [isSpSymbol] and [isStreamProcessorName] and nothing else, so
    [isStreamProcessorSymbol] keeps its value; the same access off [db]
    sets [isCollectionName] only; and [isStreamProcessorSymbol] is written
    only for a member expression whose object is a member of [sp] or an
    [sp.getProcessor(...)] call. *)
Theorem bare_sp_member_sets_name_not_symbol path this :
  (member_of_bare "sp" path ->
   in_state "isStreamProcessorName" this = true ->
   _state (enter path this) =
     <["isStreamProcessorName" := JBool true]>
       (<["isSpSymbol" := JBool true]> (_state this)) /\
   _state (enter path this) !! "isSpSymbol" = Some (JBool true) /\
   _state (enter path this) !! "isStreamProcessorName" = Some (JBool true) /\
   _state (enter path this) !! "isStreamProcessorSymbol" =
     _state this !! "isStreamProcessorSymbol") /\
  (member_of_bare "db" path ->
   in_state "isCollectionName" this = true ->
   _state (enter path this) =
     <["isCollectionName" := JBool true]> (_state this)) /\
  (_checkIsStreamProcessorSymbol path this <> this ->
   exists loc object property computed,
     path = MemberExpression loc object property computed /\
     (isMemberOf object "sp" = true \/
      isCallOf object "sp" "getProcessor" = true)).
Proof.
  split; [|split].
  - intros (loc & loc1 & property & computed & -> & Hmarker) Hin.
    apply member_of_bare_marker in Hmarker.
    assert (_state (enter (MemberExpression loc (Identifier loc1 "sp")
                             property computed) this) =
            <["isStreamProcessorName" := JBool true]>
              (<["isSpSymbol" := JBool true]> (_state this))) as ->.
    { match goal with |- _state (enter ?p _) = _ =>
        change (enter p this) with (_visitMemberExpression p this) end.
      member_checks. shapes. rewrite Hmarker, Hin. reflexivity. }
    split; [done|]. split; [|split].
    + by rewrite lookup_insert_ne, lookup_insert_eq.
    + by rewrite lookup_insert_eq.
    + by rewrite !lookup_insert_ne.
  - intros (loc & loc1 & property & computed & -> & Hmarker) Hin.
    apply member_of_bare_marker in Hmarker.
    match goal with |- _state (enter ?p _) = _ =>
      change (enter p this) with (_visitMemberExpression p this) end.
    member_checks. shapes. unfold assign_if.
    rewrite Hmarker, Hin. reflexivity.
  - intros Hchanged.
    destruct path as [| | | |loc object property computed| | | | | | | |];
      try done.
    exists loc, object, property, computed. split; [done|].
    destruct (isMemberOf object "sp") eqn:Hmember; [by left|].
    destruct (isCallOf object "sp" "getProcessor") eqn:Hcall; [by right|].
    exfalso. apply Hchanged.
    unfold _checkIsStreamProcessorSymbol,
      _checkIsStreamProcessorMemberExpression,
      _checkIsStreamProcessorCallExpression, assign_if.
    by rewrite Hmember, Hcall.
Qed.

Lemma bare_sp_member_sets_name_not_symbol_witness :
  let path :=
    MemberExpression (span 1 0 1 20) (Identifier (span 1 0 1 2) "sp")
      (Identifier (span 1 3 1 20) "TRIGGER_CHARACTER") false in
  let this := {| _state := _getDefaultsForCompletion;
                 _selection := _selection constructor |} in
  member_of_bare "sp" path /\
  in_state "isStreamProcessorName" this = true /\
  _state (enter path this) !! "isSpSymbol" = Some (JBool true) /\
  _state (enter path this) !! "isStreamProcessorName" = Some (JBool true) /\
  _state (enter path this) !! "isStreamProcessorSymbol" = Some (JBool false).
Proof.
  intros path this.
  assert (member_of_bare "sp" path) as Hpath.
  { unfold member_of_bare, path. eexists _, _, _, _.
    split; [reflexivity|]. left. reflexivity. }
  split; [exact Hpath|]. split; [reflexivity|].
  destruct (proj1 (bare_sp_member_sets_name_not_symbol path this)
              Hpath eq_refl) as (_ & Hsp & Hname & Hsymbol).
  split; [exact Hsp|]. split; [exact Hname|].
  rewrite Hsymbol. reflexivity.
Defined.

(** ** Each check is one guarded assignment *)

Lemma visitor_eq (this this' : Visitor) :
  _state this = _state this' -> _selection this = _selection this' ->
  this = this'.
Proof. destruct this, this'. simpl. by intros -> ->. Qed.

Lemma in_state_set_state key key' v this :
  in_state key (set_state key' v this) =
  String.eqb key' key || in_state key this.
Proof.
  unfold in_state, set_state. simpl.
  destruct (String.eqb_spec key' key) as [->|Hne].
  - by rewrite lookup_insert_eq.
  - by rewrite lookup_insert_ne.
Qed.

Lemma in_state_assign_if cond key' v this key :
  in_state key (assign_if cond key' v this) = in_state key this.
Proof.
  unfold assign_if. destruct cond; [|done]. simpl.
  destruct (in_state key' this) eqn:Hin; [|done].
  rewrite in_state_set_state.
  destruct (String.eqb_spec key' key) as [<-|]; [by rewrite Hin|done].
Qed.

Lemma lookup_assign_if cond key' v this key :
  _state (assign_if cond key' v this) !! key =
  if cond && in_state key' this && String.eqb key' key then Some v
  else _state this !! key.
Proof.
  unfold assign_if. destruct (cond && in_state key' this); [|done]. simpl.
  destruct (String.eqb_spec key' key) as [->|Hne].
  - by rewrite lookup_insert_eq.
  - by rewrite lookup_insert_ne.
Qed.

Lemma assign_if_twice c1 c2 key v this :
  assign_if c2 key v (assign_if c1 key v this) = assign_if (c1 || c2) key v this.
Proof.
  destruct c1; [|by rewrite assign_if_false].
  unfold assign_if at 2 3. simpl.
  destruct (in_state key this) eqn:Hin.
  - unfold assign_if. rewrite in_state_set_state, String.eqb_refl. simpl.
    destruct c2; [|done]. simpl.
    apply visitor_eq; [|done]. simpl. apply insert_insert_eq.
  - unfold assign_if. rewrite Hin. by rewrite andb_false_r.
Qed.

Lemma fold_assign_if {A} (test : A -> bool) key v items this :
  fold_left (fun this item => assign_if (test item) key v this) items this =
  assign_if (existsb test items) key v this.
Proof.
  revert this. induction items as [|item items IH]; intros this; [done|].
  simpl. by rewrite IH, assign_if_twice.
Qed.

Lemma in_state_assign_name o key' this key :
  in_state key (assign_name o key' this) = in_state key this.
Proof. destruct o; [apply in_state_assign_if|done]. Qed.

Lemma lookup_assign_name o key' this key :
  _state (assign_name o key' this) !! key =
  match o with
  | Some value =>
      if in_state key' this && String.eqb key' key then Some (JStr value)
      else _state this !! key
  | None => _state this !! key
  end.
Proof. destruct o; [apply lookup_assign_if|done]. Qed.

(** The later name wins. *)
Lemma assign_name_twice o1 o2 key this :
  assign_name o2 key (assign_name o1 key this) =
  assign_name (match o2 with Some v => Some v | None => o1 end) key this.
Proof.
  destruct o2 as [v2|]; [|done]. destruct o1 as [v1|]; [|done].
  unfold assign_name, assign_if. simpl.
  destruct (in_state key this) eqn:Hin; [|by rewrite Hin].
  rewrite in_state_set_state, String.eqb_refl. simpl.
  apply visitor_eq; [|done]. simpl. apply insert_insert_eq.
Qed.

Lemma last_cons_omap {A B} (f : A -> option B) item items :
  last (omap f (item :: items)) =
  match last (omap f items) with
  | Some v => Some v
  | None => f item
  end.
Proof.
  simpl. destruct (f item) as [v|]; [|by destruct (last _)].
  rewrite last_cons. by destruct (last _).
Qed.

Lemma fold_assign_name {A} (name : A -> option string) key items this :
  fold_left (fun this item => assign_name (name item) key this) items this =
  assign_name (last (omap name items)) key this.
Proof.
  revert this. induction items as [|item items IH]; intros this; [done|].
  simpl fold_left. by rewrite IH, assign_name_twice, last_cons_omap.
Qed.

Lemma includes_nonempty raw :
  includes raw PLACEHOLDER = true -> String.eqb raw EmptyString = false.
Proof. by destruct raw. Qed.

Lemma checkIsUseCall_assigns n this :
  _checkIsUseCall n this =
  assign_if (isUseCallWithMarker n) "isUseCallExpression" (JBool true) this.
Proof.
  unfold _checkIsUseCall, _checkIsUseCallAsSimpleString,
    _checkIsUseCallAsTemplate. rewrite assign_if_twice. f_equal.
  unfold isUseCallWithMarker.
  destruct n as [| | |loc callee arguments| | | | | | | | |]; try done.
  destruct arguments as [|argument [|]]; try done;
    destruct argument as [| | | | | | |? quasis ?| | | | |]; try done;
    try (destruct quasis as [|[] [|]]; try done);
    destruct (isIdentifier callee "use"); simpl;
    rewrite ?orb_false_r, ?andb_false_r; try done.
  all: match goal with
       | |- context [includes ?raw PLACEHOLDER] =>
           destruct (includes raw PLACEHOLDER) eqn:Hraw;
             rewrite ?(includes_nonempty _ Hraw), ?andb_false_r; try done
       end.
Qed.

Lemma checkIsCollectionNameAsCallExpression_assigns n this :
  _checkIsCollectionNameAsCallExpression n this =
  assign_if (isLookupWithMarker "db" "getCollection" n)
    "isCollectionName" (JBool true) this.
Proof.
  unfold _checkIsCollectionNameAsCallExpression,
    _checkGetCollectionAsSimpleString, _checkGetCollectionAsTemplate,
    isLookupWithMarker.
  destruct n as [| | |loc callee arguments| | | | | | | | |]; try done.
  destruct arguments as [|argument [|]]; try done.
  destruct (isMethodOf callee "db" "getCollection"); [|done].
  by rewrite assign_if_twice.
Qed.

Lemma checkIsStreamProcessorNameAsCallExpression_assigns n this :
  _checkIsStreamProcessorNameAsCallExpression n this =
  assign_if (isLookupWithMarker "sp" "getProcessor" n)
    "isStreamProcessorName" (JBool true) this.
Proof.
  unfold _checkIsStreamProcessorNameAsCallExpression,
    _checkGetStreamProcessorAsSimpleString,
    _checkGetStreamProcessorAsTemplate, isLookupWithMarker.
  destruct n as [| | |loc callee arguments| | | | | | | | |]; try done.
  destruct arguments as [|argument [|]]; try done.
  destruct (isMethodOf callee "sp" "getProcessor"); [|done].
  by rewrite assign_if_twice.
Qed.

Lemma checkIsCollectionSymbol_assigns n this :
  _checkIsCollectionSymbol n this =
  assign_if (isSymbolWithMarker "db" "getCollection" n)
    "isCollectionSymbol" (JBool true) this.
Proof.
  unfold _checkIsCollectionSymbol, _checkIsCollectionMemberExpression,
    _checkIsCollectionCallExpression, isSymbolWithMarker.
  rewrite assign_if_twice. f_equal.
  destruct n as [| | | |loc object property computed| | | | | | | |];
    try done.
  by destruct (isMemberOf object "db"), (isCallOf object "db" "getCollection"),
    (identifierIncludes property).
Qed.

Lemma checkIsStreamProcessorSymbol_assigns n this :
  _checkIsStreamProcessorSymbol n this =
  assign_if (isSymbolWithMarker "sp" "getProcessor" n)
    "isStreamProcessorSymbol" (JBool true) this.
Proof.
  unfold _checkIsStreamProcessorSymbol,
    _checkIsStreamProcessorMemberExpression,
    _checkIsStreamProcessorCallExpression, isSymbolWithMarker.
  rewrite assign_if_twice. f_equal.
  destruct n as [| | | |loc object property computed| | | | | | | |];
    try done.
  by destruct (isMemberOf object "sp"), (isCallOf object "sp" "getProcessor"),
    (identifierIncludes property).
Qed.

(** A member expression names a collection through its object in one way
    at most. *)
Lemma nameOfMemberObject_not_call n root method name :
  nameOfMemberObject n root = Some name ->
  nameOfCallObject n root method = None.
Proof.
  destruct n as [| | | |loc object property computed| | | | | | | |];
    try done.
  by destruct object.
Qed.

Lemma nameUnder_later root method n :
  match nameOfCallObject n root method with
  | Some v => Some v
  | None => nameOfMemberObject n root
  end = nameUnder root method n.
Proof.
  unfold nameUnder.
  destruct (nameOfMemberObject n root) as [name|] eqn:Hmember.
  - by rewrite (nameOfMemberObject_not_call _ _ method _ Hmember).
  - by destruct (nameOfCallObject n root method).
Qed.

Lemma checkHasCollectionName_assigns n this :
  _checkHasCollectionName n this =
  assign_name (nameUnder "db" "getCollection" n) "collectionName" this.
Proof.
  unfold _checkHasCollectionName, _checkHasCollectionNameMemberExpression,
    _checkHasCollectionNameCallExpression.
  change (assign_name (nameOfCallObject n "db" "getCollection")
            "collectionName"
            (assign_name (nameOfMemberObject n "db") "collectionName" this) =
          assign_name (nameUnder "db" "getCollection" n) "collectionName"
            this).
  by rewrite assign_name_twice, nameUnder_later.
Qed.

Lemma checkHasStreamProcessorName_assigns n this :
  _checkHasStreamProcessorName n this =
  assign_name (nameUnder "sp" "getProcessor" n) "streamProcessorName" this.
Proof.
  unfold _checkHasStreamProcessorName,
    _checkHasStreamProcessorNameMemberExpression,
    _checkHasStreamProcessorNameCallExpression.
  change (assign_name (nameOfCallObject n "sp" "getProcessor")
            "streamProcessorName"
            (assign_name (nameOfMemberObject n "sp") "streamProcessorName"
               this) =
          assign_name (nameUnder "sp" "getProcessor" n) "streamProcessorName"
            this).
  by rewrite assign_name_twice, nameUnder_later.
Qed.

Lemma checkIsObjectKey_assigns n this :
  _checkIsObjectKey n this =
  assign_if (isObjectWith hasMarkerKey n) "isObjectKey" (JBool true) this.
Proof.
  destruct n; try done. apply (fold_assign_if hasMarkerKey).
Qed.

Lemma checkIsIdentifierObjectValue_assigns n this :
  _checkIsIdentifierObjectValue n this =
  assign_if (isObjectWith hasMarkerIdentifierValue n)
    "isIdentifierObjectValue" (JBool true) this.
Proof.
  destruct n; try done. apply (fold_assign_if hasMarkerIdentifierValue).
Qed.

Lemma checkIsTextObjectValue_assigns n this :
  _checkIsTextObjectValue n this =
  assign_if (isObjectWith hasMarkerTextValue n)
    "isTextObjectValue" (JBool true) this.
Proof.
  destruct n; try done. apply (fold_assign_if hasMarkerTextValue).
Qed.

Lemma fold_left_pointwise {A B} (f g : B -> A -> B) items b :
  (forall b item, f b item = g b item) ->
  fold_left f items b = fold_left g items b.
Proof.
  intros Hfg. revert b. induction items as [|item items IH]; intros b; [done|].
  simpl. by rewrite Hfg, IH.
Qed.

Lemma checkIsStage_assigns n this :
  _checkIsStage n this =
  assign_if (isPipelineWithMarkerStage n) "isStage" (JBool true) this.
Proof.
  destruct n as [| | | | | | | | | | |loc elements|]; try done.
  unfold _checkIsStage, isPipelineWithMarkerStage.
  rewrite <- fold_assign_if. apply fold_left_pointwise.
  intros this' [element|]; [|done].
  destruct element; try done. apply (fold_assign_if hasMarkerKey).
Qed.

Lemma enterStage_assigns name item this :
  Babel.traverse (Some item) (enterStage name) this =
  assign_if (existsb hasMarkerKey (Babel.descendants item))
    "stageOperator" (JStr name) this.
Proof. apply (fold_assign_if hasMarkerKey). Qed.

Lemma last_omap_flat_map {A B C} (f : A -> list B) (g : B -> option C) items :
  last (omap (fun item => last (omap g (f item))) items) =
  last (omap g (flat_map f items)).
Proof.
  induction items as [|item items IH]; [done|].
  rewrite last_cons_omap, IH. simpl flat_map.
  rewrite omap_app, last_app. by destruct (last (omap g (flat_map f items))).
Qed.

Lemma checkIsStageOperator_assigns n this :
  _checkIsStageOperator n this =
  assign_name (last (omap stageOperatorOf (stageProperties n)))
    "stageOperator" this.
Proof.
  destruct n as [| | | | | | | | | | |loc elements|]; try done.
  unfold _checkIsStageOperator, stageProperties.
  rewrite <- last_omap_flat_map.
  rewrite <- (fold_assign_name
    (fun item : option node =>
       last (omap stageOperatorOf
               match item with
               | Some (ObjectExpression _ properties) => properties
               | _ => []
               end))).
  apply fold_left_pointwise. intros this' [element|]; [|done].
  destruct element as [| | | | | | | | |l properties| | |]; try done.
  rewrite <- fold_assign_name. apply fold_left_pointwise.
  intros this'' item.
  destruct item as [| | | | | | | | | |l' key value| |]; try done.
  destruct key; try done. destruct value; try done.
  rewrite enterStage_assigns. unfold stageOperatorOf.
  by destruct (existsb _ _).
Qed.

(** ** What one node writes *)

Lemma checkHasDatabaseName_assigns n this :
  _checkHasDatabaseName n this =
  assign_name (databaseNameBeforeSelection n this) "databaseName" this.
Proof. reflexivity. Qed.

Lemma lookup_checkIsStreamProcessorNameAsMemberExpression n this key :
  _state (_checkIsStreamProcessorNameAsMemberExpression n this) !! key =
  if isBareMemberWithMarker "sp" n &&
     in_state "isStreamProcessorName" this &&
     (String.eqb "isStreamProcessorName" key || String.eqb "isSpSymbol" key)
  then Some (JBool true) else _state this !! key.
Proof.
  unfold _checkIsStreamProcessorNameAsMemberExpression.
  change (match n with
          | MemberExpression _ object property _ =>
              isIdentifier object "sp" &&
              (identifierIncludes property || stringLiteralIncludes property)
          | _ => false
          end) with (isBareMemberWithMarker "sp" n).
  destruct (isBareMemberWithMarker "sp" n &&
            in_state "isStreamProcessorName" this); [|done].
  cbn [andb set_state _state].
  destruct (String.eqb_spec "isStreamProcessorName" key) as [<-|Hname].
  - by rewrite lookup_insert_eq.
  - rewrite lookup_insert_ne by done. cbn [orb].
    destruct (String.eqb_spec "isSpSymbol" key) as [<-|Hsp].
    + by rewrite lookup_insert_eq.
    + by rewrite lookup_insert_ne.
Qed.

Lemma in_state_checkIsStreamProcessorNameAsMemberExpression n this key :
  in_state key (_checkIsStreamProcessorNameAsMemberExpression n this) =
  in_state key this ||
  (isBareMemberWithMarker "sp" n && in_state "isStreamProcessorName" this &&
   String.eqb "isSpSymbol" key).
Proof.
  unfold in_state at 1.
  rewrite lookup_checkIsStreamProcessorNameAsMemberExpression.
  destruct (isBareMemberWithMarker "sp" n); [|by rewrite orb_false_r].
  destruct (in_state "isStreamProcessorName" this) eqn:Hin;
    [|by rewrite orb_false_r].
  cbn [andb].
  destruct (String.eqb_spec "isStreamProcessorName" key) as [<-|Hname].
  - by rewrite Hin.
  - cbn [orb]. destruct ("isSpSymbol" =? key)%string; [by rewrite orb_true_r|].
    by rewrite orb_false_r.
Qed.

Lemma lookup_assign_name_other o key' this key :
  String.eqb key' key = false ->
  _state (assign_name o key' this) !! key = _state this !! key.
Proof.
  intros Hne. rewrite lookup_assign_name, Hne, andb_false_r.
  by destruct o.
Qed.

Lemma lookup_assign_if_other cond key' v this key :
  String.eqb key' key = false ->
  _state (assign_if cond key' v this) !! key = _state this !! key.
Proof.
  intros Hne. by rewrite lookup_assign_if, Hne, andb_false_r.
Qed.

Lemma lookup_checkIsStreamProcessorNameAsMemberExpression_other n this key :
  String.eqb "isStreamProcessorName" key || String.eqb "isSpSymbol" key
    = false ->
  _state (_checkIsStreamProcessorNameAsMemberExpression n this) !! key =
  _state this !! key.
Proof.
  intros Hne.
  by rewrite lookup_checkIsStreamProcessorNameAsMemberExpression, Hne,
    andb_false_r.
Qed.

Lemma enter_entered n this : enter n this = entered n this.
Proof.
  unfold enter, _visitCallExpression, _visitMemberExpression,
    _visitExpressionStatement, _visitObjectExpression,
    _visitArrayExpression.
  destruct n; cbv beta iota zeta;
    rewrite ?checkIsUseCall_assigns,
      ?checkIsCollectionNameAsCallExpression_assigns,
      ?checkIsStreamProcessorNameAsCallExpression_assigns,
      ?checkHasDatabaseName_assigns, ?checkIsCollectionSymbol_assigns,
      ?checkHasCollectionName_assigns,
      ?checkIsStreamProcessorSymbol_assigns,
      ?checkHasStreamProcessorName_assigns, ?checkIsObjectKey_assigns,
      ?checkIsIdentifierObjectValue_assigns,
      ?checkIsTextObjectValue_assigns, ?checkIsStage_assigns,
      ?checkIsStageOperator_assigns;
    reflexivity.
Qed.

(** Reads a field through the writes of one node. *)
Ltac read_field :=
  rewrite enter_entered; unfold entered; cbv zeta;
  repeat first
    [ rewrite lookup_assign_if_other by reflexivity
    | rewrite lookup_assign_name_other by reflexivity
    | rewrite lookup_checkIsStreamProcessorNameAsMemberExpression_other
        by reflexivity
    | rewrite lookup_assign_if
    | rewrite lookup_assign_name
    | rewrite lookup_checkIsStreamProcessorNameAsMemberExpression
    | rewrite in_state_assign_if
    | rewrite in_state_assign_name
    | rewrite in_state_checkIsStreamProcessorNameAsMemberExpression ];
  cbn [String.eqb Ascii.eqb Bool.eqb andb orb];
  rewrite ?andb_false_r, ?andb_true_r, ?orb_false_r.

Ltac flag_step n Hin :=
  read_field; rewrite ?Hin; cbn [andb orb];
  rewrite ?andb_false_r, ?andb_true_r, ?orb_false_r;
  try reflexivity.

Lemma enter_isUseCallExpression n this :
  in_state "isUseCallExpression" this = true ->
  _state (enter n this) !! "isUseCallExpression" =
  if isUseCallWithMarker n then Some (JBool true)
  else _state this !! "isUseCallExpression".
Proof. intros Hin. flag_step n Hin. Qed.

Lemma enter_isCollectionName n this :
  in_state "isCollectionName" this = true ->
  _state (enter n this) !! "isCollectionName" =
  if isBareMemberWithMarker "db" n || isLookupWithMarker "db" "getCollection" n
  then Some (JBool true) else _state this !! "isCollectionName".
Proof.
  intros Hin. flag_step n Hin.
  by destruct (isBareMemberWithMarker _ _), (isLookupWithMarker _ _ _).
Qed.

Lemma enter_isCollectionSymbol n this :
  in_state "isCollectionSymbol" this = true ->
  _state (enter n this) !! "isCollectionSymbol" =
  if isSymbolWithMarker "db" "getCollection" n
  then Some (JBool true) else _state this !! "isCollectionSymbol".
Proof. intros Hin. flag_step n Hin. Qed.

Lemma enter_isStreamProcessorName n this :
  in_state "isStreamProcessorName" this = true ->
  _state (enter n this) !! "isStreamProcessorName" =
  if isBareMemberWithMarker "sp" n || isLookupWithMarker "sp" "getProcessor" n
  then Some (JBool true) else _state this !! "isStreamProcessorName".
Proof.
  intros Hin. flag_step n Hin.
  by destruct (isBareMemberWithMarker _ _), (isLookupWithMarker _ _ _).
Qed.

Lemma enter_isStreamProcessorSymbol n this :
  in_state "isStreamProcessorSymbol" this = true ->
  _state (enter n this) !! "isStreamProcessorSymbol" =
  if isSymbolWithMarker "sp" "getProcessor" n
  then Some (JBool true) else _state this !! "isStreamProcessorSymbol".
Proof. intros Hin. flag_step n Hin. Qed.

Lemma enter_isSpSymbol n this :
  in_state "isSpSymbol" this = true ->
  in_state "isStreamProcessorName" this = true ->
  _state (enter n this) !! "isSpSymbol" =
  if isMemberStatement "sp" n || isBareMemberWithMarker "sp" n
  then Some (JBool true) else _state this !! "isSpSymbol".
Proof.
  intros Hin Hname. flag_step n Hin. rewrite Hname, ?andb_true_r.
  by destruct (isBareMemberWithMarker _ _), (isMemberStatement _ _).
Qed.

Lemma enter_isDbSymbol n this :
  in_state "isDbSymbol" this = true ->
  _state (enter n this) !! "isDbSymbol" =
  if isMemberStatement "db" n
  then Some (JBool true) else _state this !! "isDbSymbol".
Proof. intros Hin. flag_step n Hin. Qed.

Lemma enter_isGlobalSymbol n this :
  in_state "isGlobalSymbol" this = true ->
  _state (enter n this) !! "isGlobalSymbol" =
  if isMarkerStatement n
  then Some (JBool true) else _state this !! "isGlobalSymbol".
Proof. intros Hin. flag_step n Hin. Qed.

Lemma enter_isObjectKey n this :
  in_state "isObjectKey" this = true ->
  _state (enter n this) !! "isObjectKey" =
  if isObjectWith hasMarkerKey n
  then Some (JBool true) else _state this !! "isObjectKey".
Proof. intros Hin. flag_step n Hin. Qed.

Lemma enter_isIdentifierObjectValue n this :
  in_state "isIdentifierObjectValue" this = true ->
  _state (enter n this) !! "isIdentifierObjectValue" =
  if isObjectWith hasMarkerIdentifierValue n
  then Some (JBool true) else _state this !! "isIdentifierObjectValue".
Proof. intros Hin. flag_step n Hin. Qed.

Lemma enter_isTextObjectValue n this :
  in_state "isTextObjectValue" this = true ->
  _state (enter n this) !! "isTextObjectValue" =
  if isObjectWith hasMarkerTextValue n
  then Some (JBool true) else _state this !! "isTextObjectValue".
Proof. intros Hin. flag_step n Hin. Qed.

Lemma enter_isStage n this :
  in_state "isStage" this = true ->
  _state (enter n this) !! "isStage" =
  if isPipelineWithMarkerStage n
  then Some (JBool true) else _state this !! "isStage".
Proof. intros Hin. flag_step n Hin. Qed.

Lemma enter_isFindCursor n this :
  in_state "isFindCursor" this = true ->
  _state (enter n this) !! "isFindCursor" =
  if isChainedWithMarker "find" n
  then Some (JBool true) else _state this !! "isFindCursor".
Proof. intros Hin. flag_step n Hin. Qed.

Lemma enter_isAggregationCursor n this :
  in_state "isAggregationCursor" this = true ->
  _state (enter n this) !! "isAggregationCursor" =
  if isChainedWithMarker "aggregate" n
  then Some (JBool true) else _state this !! "isAggregationCursor".
Proof. intros Hin. flag_step n Hin. Qed.

Lemma enter_collectionName n this :
  in_state "collectionName" this = true ->
  _state (enter n this) !! "collectionName" =
  match nameUnder "db" "getCollection" n with
  | Some name => Some (JStr name)
  | None => _state this !! "collectionName"
  end.
Proof.
  intros Hin. flag_step n Hin.
  all: try by destruct (nameUnder _ _ _).
Qed.

Lemma enter_streamProcessorName n this :
  in_state "streamProcessorName" this = true ->
  _state (enter n this) !! "streamProcessorName" =
  match nameUnder "sp" "getProcessor" n with
  | Some name => Some (JStr name)
  | None => _state this !! "streamProcessorName"
  end.
Proof.
  intros Hin. flag_step n Hin.
  all: try by destruct (nameUnder _ _ _).
Qed.

Lemma enter_stageOperator n this :
  in_state "stageOperator" this = true ->
  _state (enter n this) !! "stageOperator" =
  match last (omap stageOperatorOf (stageProperties n)) with
  | Some name => Some (JStr name)
  | None => _state this !! "stageOperator"
  end.
Proof.
  intros Hin. flag_step n Hin.
  all: try by destruct (last _).
Qed.

(** ** What the walk writes *)

Lemma in_state_entered n this key :
  in_state key (entered n this) =
  in_state key this ||
  (isBareMemberWithMarker "sp" n && in_state "isStreamProcessorName" this &&
   String.eqb "isSpSymbol" key).
Proof.
  unfold entered. cbv zeta.
  repeat first
    [ rewrite in_state_assign_if
    | rewrite in_state_assign_name
    | rewrite in_state_checkIsStreamProcessorNameAsMemberExpression ].
  reflexivity.
Qed.

Lemma in_state_enter n this key :
  in_state key this = true -> in_state key (enter n this) = true.
Proof. intros Hin. by rewrite enter_entered, in_state_entered, Hin. Qed.

(** A flag with its writers: up at the end of the walk exactly when one
    of the nodes entered raises it. *)
Lemma walk_flag_exact (ok : Visitor -> Prop) key (raises : node -> bool)
    nodes this :
  (forall n this, ok this -> ok (enter n this)) ->
  (forall n this, ok this ->
     _state (enter n this) !! key =
     if raises n then Some (JBool true) else _state this !! key) ->
  ok this ->
  _state (fold_left (fun this path => enter path this) nodes this) !! key =
  if existsb raises nodes then Some (JBool true) else _state this !! key.
Proof.
  intros Hok Hstep. revert this.
  induction nodes as [|n nodes IH]; intros this Hthis; [done|].
  simpl. rewrite IH by auto. rewrite Hstep by done.
  destruct (raises n); simpl; by destruct (existsb raises nodes).
Qed.

(** A name with its writers: the last node entered that gives one
    wins. *)
Lemma walk_name_exact key (name : node -> option string) nodes this :
  (forall n this, in_state key this = true ->
     _state (enter n this) !! key =
     match name n with
     | Some value => Some (JStr value)
     | None => _state this !! key
     end) ->
  in_state key this = true ->
  _state (fold_left (fun this path => enter path this) nodes this) !! key =
  match last (omap name nodes) with
  | Some value => Some (JStr value)
  | None => _state this !! key
  end.
Proof.
  intros Hstep. revert this.
  induction nodes as [|n nodes IH]; intros this Hin; [done|].
  simpl fold_left. rewrite IH by by apply in_state_enter.
  rewrite last_cons_omap, Hstep by done.
  by destruct (last (omap name nodes)).
Qed.

Lemma walk_flag_of_defaults key (raises : node -> bool)
    (selection : VisitorSelection) nodes :
  (forall n this, in_state key this = true ->
     _state (enter n this) !! key =
     if raises n then Some (JBool true) else _state this !! key) ->
  _getDefaultsForCompletion !! key = Some (JBool false) ->
  _state (fold_left (fun this path => enter path this) nodes
            {| _state := _getDefaultsForCompletion;
               _selection := selection |}) !! key =
  Some (JBool (existsb raises nodes)).
Proof.
  intros Hstep Hdefault.
  rewrite (walk_flag_exact (fun this => in_state key this = true)
             key raises).
  - cbn [_state]. rewrite Hdefault. by destruct (existsb raises nodes).
  - intros. by apply in_state_enter.
  - done.
  - unfold in_state. cbn [_state]. by rewrite Hdefault.
Qed.

Lemma walk_name_of_defaults key (name : node -> option string)
    (selection : VisitorSelection) nodes :
  (forall n this, in_state key this = true ->
     _state (enter n this) !! key =
     match name n with
     | Some value => Some (JStr value)
     | None => _state this !! key
     end) ->
  _getDefaultsForCompletion !! key = Some JNull ->
  _state (fold_left (fun this path => enter path this) nodes
            {| _state := _getDefaultsForCompletion;
               _selection := selection |}) !! key =
  Some match last (omap name nodes) with
       | Some value => JStr value
       | None => JNull
       end.
Proof.
  intros Hstep Hdefault. rewrite (walk_name_exact key name).
  - cbn [_state]. rewrite Hdefault. by destruct (last _).
  - done.
  - unfold in_state. cbn [_state]. by rewrite Hdefault.
Qed.

(** ** The flags, exactly *)

Ltac completion_walk Hinject Hparse this :=
  let this' := fresh "this'" in
  destruct (parseASTForCompletion_parsed _ _ _ _ _ this Hinject Hparse)
    as (this' & -> & ->);
  eexists _, _; split; [reflexivity|].

(** Property X1.  [isUseCallExpression] is [true] exactly when the walk
    enters a call [use(x)] whose one argument is a string literal, or a
    template of one quasi, that contains the marker. *)
Theorem isUseCallExpression_exact parse text position injected ast this :
  _handleTriggerCharacter text position = Ok injected ->
  parse injected = Some ast ->
  exists state this',
    parseASTForCompletion parse text position this = (Ok state, this') /\
    state !! "isUseCallExpression" =
      Some (JBool (existsb isUseCallWithMarker (Babel.descendants ast))).
Proof.
  intros Hinject Hparse. completion_walk Hinject Hparse this.
  by apply walk_flag_of_defaults; [apply enter_isUseCallExpression|].
Qed.

Lemma isUseCallExpression_exact_witness :
  _handleTriggerCharacter use_marker (at_ 0 5) = Ok use_marker_injected /\
  parses use_marker_injected use_marker_ast use_marker_injected =
    Some use_marker_ast /\
  exists state this',
    parseASTForCompletion (parses use_marker_injected use_marker_ast)
      use_marker (at_ 0 5) constructor = (Ok state, this') /\
    state !! "isUseCallExpression" = Some (JBool true).
Proof.
  split; [reflexivity|]. split; [reflexivity|].
  exact (isUseCallExpression_exact
           (parses use_marker_injected use_marker_ast) use_marker (at_ 0 5)
           use_marker_injected use_marker_ast constructor eq_refl eq_refl).
Defined.

(** Property X2.  [isGlobalSymbol] is [true] exactly when the walk enters a
    statement that is an identifier containing the marker, and [isDbSymbol]
    exactly when it enters a statement that is a member access off the bare
    identifier [db]. *)
Theorem statement_flags_exact parse text position injected ast this :
  _handleTriggerCharacter text position = Ok injected ->
  parse injected = Some ast ->
  exists state this',
    parseASTForCompletion parse text position this = (Ok state, this') /\
    state !! "isGlobalSymbol" =
      Some (JBool (existsb isMarkerStatement (Babel.descendants ast))) /\
    state !! "isDbSymbol" =
      Some (JBool (existsb (isMemberStatement "db")
                     (Babel.descendants ast))).
Proof.
  intros Hinject Hparse. completion_walk Hinject Hparse this. split.
  - by apply walk_flag_of_defaults; [apply enter_isGlobalSymbol|].
  - by apply walk_flag_of_defaults; [apply enter_isDbSymbol|].
Qed.

Lemma statement_flags_exact_witness :
  _handleTriggerCharacter db_dot (at_ 0 3) = Ok db_dot_injected /\
  parses db_dot_injected db_dot_ast db_dot_injected = Some db_dot_ast /\
  exists state this',
    parseASTForCompletion (parses db_dot_injected db_dot_ast)
      db_dot (at_ 0 3) constructor = (Ok state, this') /\
    state !! "isGlobalSymbol" = Some (JBool false) /\
    state !! "isDbSymbol" = Some (JBool true).
Proof.
  split; [reflexivity|]. split; [reflexivity|].
  exact (statement_flags_exact (parses db_dot_injected db_dot_ast)
           db_dot (at_ 0 3) db_dot_injected db_dot_ast constructor
           eq_refl eq_refl).
Defined.

(** Property X3.  [isCollectionName] is [true] exactly when the walk enters
    a member access off the bare identifier [db] whose property contains the
    marker, or a call [db.getCollection(x)] whose one argument is a string
    literal, or a template of one quasi, that contains the marker. *)
Theorem isCollectionName_exact parse text position injected ast this :
  _handleTriggerCharacter text position = Ok injected ->
  parse injected = Some ast ->
  exists state this',
    parseASTForCompletion parse text position this = (Ok state, this') /\
    state !! "isCollectionName" =
      Some (JBool (existsb
                     (fun n => isBareMemberWithMarker "db" n ||
                               isLookupWithMarker "db" "getCollection" n)
                     (Babel.descendants ast))).
Proof.
  intros Hinject Hparse. completion_walk Hinject Hparse this.
  by apply walk_flag_of_defaults; [apply enter_isCollectionName|].
Qed.

Lemma isCollectionName_exact_witness :
  _handleTriggerCharacter get_collection (at_ 0 18) =
    Ok get_collection_injected /\
  parses get_collection_injected get_collection_ast get_collection_injected =
    Some get_collection_ast /\
  exists state this',
    parseASTForCompletion
      (parses get_collection_injected get_collection_ast)
      get_collection (at_ 0 18) constructor = (Ok state, this') /\
    state !! "isCollectionName" = Some (JBool true).
Proof.
  split; [reflexivity|]. split; [reflexivity|].
  exact (isCollectionName_exact
           (parses get_collection_injected get_collection_ast)
           get_collection (at_ 0 18) get_collection_injected
           get_collection_ast constructor eq_refl eq_refl).
Defined.

(** Property X4.  [isCollectionSymbol] is [true] exactly when the walk
    enters a member expression whose property is an identifier containing
    the marker and whose object is a member access off the bare identifier
    [db] or a call of [db.getCollection]. *)
Theorem isCollectionSymbol_exact parse text position injected ast this :
  _handleTriggerCharacter text position = Ok injected ->
  parse injected = Some ast ->
  exists state this',
    parseASTForCompletion parse text position this = (Ok state, this') /\
    state !! "isCollectionSymbol" =
      Some (JBool (existsb (isSymbolWithMarker "db" "getCollection")
                     (Babel.descendants ast))).
Proof.
  intros Hinject Hparse. completion_walk Hinject Hparse this.
  by apply walk_flag_of_defaults; [apply enter_isCollectionSymbol|].
Qed.

Lemma isCollectionSymbol_exact_witness :
  _handleTriggerCharacter coll_dot (at_ 0 8) = Ok coll_dot_injected /\
  parses coll_dot_injected coll_dot_ast coll_dot_injected =
    Some coll_dot_ast /\
  exists state this',
    parseASTForCompletion (parses coll_dot_injected coll_dot_ast)
      coll_dot (at_ 0 8) constructor = (Ok state, this') /\
    state !! "isCollectionSymbol" = Some (JBool true).
Proof.
  split; [reflexivity|]. split; [reflexivity|].
  exact (isCollectionSymbol_exact (parses coll_dot_injected coll_dot_ast)
           coll_dot (at_ 0 8) coll_dot_injected coll_dot_ast constructor
           eq_refl eq_refl).
Defined.

(** Property X5.  The flags of stream processors. [isSpSymbol] is [true]
    exactly when the walk enters a statement that is a member access off the
    bare identifier [sp], or any member access off bare [sp] whose property
    contains the marker; [isStreamProcessorName] exactly when it enters such
    a member access with the marker or a call [sp.getProcessor(x)] whose one
    argument is a literal containing the marker; [isStreamProcessorSymbol]
    exactly when it enters a member expression whose property is an
    identifier containing the marker and whose object is a member access off
    bare [sp] or a call of [sp.getProcessor]. *)
Theorem stream_processor_flags_exact
    parse text position injected ast this :
  _handleTriggerCharacter text position = Ok injected ->
  parse injected = Some ast ->
  exists state this',
    parseASTForCompletion parse text position this = (Ok state, this') /\
    state !! "isSpSymbol" =
      Some (JBool (existsb
                     (fun n => isMemberStatement "sp" n ||
                               isBareMemberWithMarker "sp" n)
                     (Babel.descendants ast))) /\
    state !! "isStreamProcessorName" =
      Some (JBool (existsb
                     (fun n => isBareMemberWithMarker "sp" n ||
                               isLookupWithMarker "sp" "getProcessor" n)
                     (Babel.descendants ast))) /\
    state !! "isStreamProcessorSymbol" =
      Some (JBool (existsb (isSymbolWithMarker "sp" "getProcessor")
                     (Babel.descendants ast))).
Proof.
  intros Hinject Hparse. completion_walk Hinject Hparse this.
  split; [|split].
  - rewrite (walk_flag_exact
      (fun this => in_state "isSpSymbol" this = true /\
                   in_state "isStreamProcessorName" this = true)
      "isSpSymbol"
      (fun n => isMemberStatement "sp" n || isBareMemberWithMarker "sp" n)).
    + cbn [_state].
      change (_getDefaultsForCompletion !! "isSpSymbol")
        with (Some (JBool false)).
      by destruct (existsb _ _).
    + intros n this0 [? ?]. split; by apply in_state_enter.
    + intros n this0 [? ?]. by apply enter_isSpSymbol.
    + by split.
  - by apply walk_flag_of_defaults; [apply enter_isStreamProcessorName|].
  - by apply walk_flag_of_defaults; [apply enter_isStreamProcessorSymbol|].
Qed.

Lemma stream_processor_flags_exact_witness :
  _handleTriggerCharacter sp_dot (at_ 0 3) = Ok sp_dot_injected /\
  parses sp_dot_injected sp_dot_ast sp_dot_injected = Some sp_dot_ast /\
  exists state this',
    parseASTForCompletion (parses sp_dot_injected sp_dot_ast)
      sp_dot (at_ 0 3) constructor = (Ok state, this') /\
    state !! "isSpSymbol" = Some (JBool true) /\
    state !! "isStreamProcessorName" = Some (JBool true) /\
    state !! "isStreamProcessorSymbol" = Some (JBool false).
Proof.
  split; [reflexivity|]. split; [reflexivity|].
  exact (stream_processor_flags_exact (parses sp_dot_injected sp_dot_ast)
           sp_dot (at_ 0 3) sp_dot_injected sp_dot_ast constructor
           eq_refl eq_refl).
Defined.

(** Property X6.  The positions inside an object literal. [isObjectKey] is
    [true] exactly when the walk enters an object expression one of whose
    properties has an identifier containing the marker as its key;
    [isIdentifierObjectValue] exactly when one has such an identifier as its
    value; [isTextObjectValue] exactly when one has as its value a string
    literal, or a template of one quasi, containing the marker. *)
Theorem object_flags_exact parse text position injected ast this :
  _handleTriggerCharacter text position = Ok injected ->
  parse injected = Some ast ->
  exists state this',
    parseASTForCompletion parse text position this = (Ok state, this') /\
    state !! "isObjectKey" =
      Some (JBool (existsb (isObjectWith hasMarkerKey)
                     (Babel.descendants ast))) /\
    state !! "isIdentifierObjectValue" =
      Some (JBool (existsb (isObjectWith hasMarkerIdentifierValue)
                     (Babel.descendants ast))) /\
    state !! "isTextObjectValue" =
      Some (JBool (existsb (isObjectWith hasMarkerTextValue)
                     (Babel.descendants ast))).
Proof.
  intros Hinject Hparse. completion_walk Hinject Hparse this.
  split; [|split].
  - by apply walk_flag_of_defaults; [apply enter_isObjectKey|].
  - by apply walk_flag_of_defaults; [apply enter_isIdentifierObjectValue|].
  - by apply walk_flag_of_defaults; [apply enter_isTextObjectValue|].
Qed.

Lemma object_flags_exact_witness :
  _handleTriggerCharacter match_stage (at_ 0 31) = Ok match_stage_injected /\
  parses match_stage_injected match_stage_ast match_stage_injected =
    Some match_stage_ast /\
  exists state this',
    parseASTForCompletion (parses match_stage_injected match_stage_ast)
      match_stage (at_ 0 31) constructor = (Ok state, this') /\
    state !! "isObjectKey" = Some (JBool true) /\
    state !! "isIdentifierObjectValue" = Some (JBool true) /\
    state !! "isTextObjectValue" = Some (JBool false).
Proof.
  split; [reflexivity|]. split; [reflexivity|].
  exact (object_flags_exact (parses match_stage_injected match_stage_ast)
           match_stage (at_ 0 31) match_stage_injected match_stage_ast
           constructor eq_refl eq_refl).
Defined.

(** Property X7.  [isStage] is [true] exactly when the walk enters an array
    one of whose elements is an object expression with a property whose key
    is an identifier containing the marker. *)
Theorem isStage_exact parse text position injected ast this :
  _handleTriggerCharacter text position = Ok injected ->
  parse injected = Some ast ->
  exists state this',
    parseASTForCompletion parse text position this = (Ok state, this') /\
    state !! "isStage" =
      Some (JBool (existsb isPipelineWithMarkerStage
                     (Babel.descendants ast))).
Proof.
  intros Hinject Hparse. completion_walk Hinject Hparse this.
  by apply walk_flag_of_defaults; [apply enter_isStage|].
Qed.

Lemma isStage_exact_witness :
  _handleTriggerCharacter stage_key (at_ 0 21) = Ok stage_key_injected /\
  parses stage_key_injected stage_key_ast stage_key_injected =
    Some stage_key_ast /\
  exists state this',
    parseASTForCompletion (parses stage_key_injected stage_key_ast)
      stage_key (at_ 0 21) constructor = (Ok state, this') /\
    state !! "isStage" = Some (JBool true).
Proof.
  split; [reflexivity|]. split; [reflexivity|].
  exact (isStage_exact (parses stage_key_injected stage_key_ast)
           stage_key (at_ 0 21) stage_key_injected stage_key_ast
           constructor eq_refl eq_refl).
Defined.

(** Property X8.  [isFindCursor] (respectively [isAggregationCursor]) is
    [true] exactly when the walk enters a member expression whose property
    is an identifier containing the marker and whose object is a call with a
    non-computed member callee named [find] (respectively [aggregate]). *)
Theorem cursor_flags_exact parse text position injected ast this :
  _handleTriggerCharacter text position = Ok injected ->
  parse injected = Some ast ->
  exists state this',
    parseASTForCompletion parse text position this = (Ok state, this') /\
    state !! "isFindCursor" =
      Some (JBool (existsb (isChainedWithMarker "find")
                     (Babel.descendants ast))) /\
    state !! "isAggregationCursor" =
      Some (JBool (existsb (isChainedWithMarker "aggregate")
                     (Babel.descendants ast))).
Proof.
  intros Hinject Hparse. completion_walk Hinject Hparse this. split.
  - by apply walk_flag_of_defaults; [apply enter_isFindCursor|].
  - by apply walk_flag_of_defaults; [apply enter_isAggregationCursor|].
Qed.

Lemma cursor_flags_exact_witness :
  _handleTriggerCharacter find_dot (at_ 0 17) = Ok find_dot_injected /\
  parses find_dot_injected find_dot_ast find_dot_injected =
    Some find_dot_ast /\
  exists state this',
    parseASTForCompletion (parses find_dot_injected find_dot_ast)
      find_dot (at_ 0 17) constructor = (Ok state, this') /\
    state !! "isFindCursor" = Some (JBool true) /\
    state !! "isAggregationCursor" = Some (JBool false).
Proof.
  split; [reflexivity|]. split; [reflexivity|].
  exact (cursor_flags_exact (parses find_dot_injected find_dot_ast)
           find_dot (at_ 0 17) find_dot_injected find_dot_ast constructor
           eq_refl eq_refl).
Defined.

(** ** The names, exactly *)

(** Property X9.  [collectionName] is the name under [db] in the last member
    expression the walk enters whose object is [db.name], [db['name']] or
    [db.getCollection('name')]; it is [null] when there is none. *)
Theorem collectionName_exact parse text position injected ast this :
  _handleTriggerCharacter text position = Ok injected ->
  parse injected = Some ast ->
  exists state this',
    parseASTForCompletion parse text position this = (Ok state, this') /\
    state !! "collectionName" =
      Some match last (omap (nameUnder "db" "getCollection")
                         (Babel.descendants ast)) with
           | Some name => JStr name
           | None => JNull
           end.
Proof.
  intros Hinject Hparse. completion_walk Hinject Hparse this.
  by apply walk_name_of_defaults; [apply enter_collectionName|].
Qed.

Lemma collectionName_exact_witness :
  _handleTriggerCharacter find_dot (at_ 0 17) = Ok find_dot_injected /\
  parses find_dot_injected find_dot_ast find_dot_injected =
    Some find_dot_ast /\
  exists state this',
    parseASTForCompletion (parses find_dot_injected find_dot_ast)
      find_dot (at_ 0 17) constructor = (Ok state, this') /\
    state !! "collectionName" = Some (JStr "coll").
Proof.
  split; [reflexivity|]. split; [reflexivity|].
  exact (collectionName_exact (parses find_dot_injected find_dot_ast)
           find_dot (at_ 0 17) find_dot_injected find_dot_ast constructor
           eq_refl eq_refl).
Defined.

(** Property X10.  [streamProcessorName] is the name under [sp] in the last
    member expression the walk enters whose object is [sp.name],
    [sp['name']] or [sp.getProcessor('name')]; it is [null] when there is
    none. *)
Theorem streamProcessorName_exact parse text position injected ast this :
  _handleTriggerCharacter text position = Ok injected ->
  parse injected = Some ast ->
  exists state this',
    parseASTForCompletion parse text position this = (Ok state, this') /\
    state !! "streamProcessorName" =
      Some match last (omap (nameUnder "sp" "getProcessor")
                         (Babel.descendants ast)) with
           | Some name => JStr name
           | None => JNull
           end.
Proof.
  intros Hinject Hparse. completion_walk Hinject Hparse this.
  by apply walk_name_of_defaults; [apply enter_streamProcessorName|].
Qed.

Lemma streamProcessorName_exact_witness :
  _handleTriggerCharacter proc_dot (at_ 0 8) = Ok proc_dot_injected /\
  parses proc_dot_injected proc_dot_ast proc_dot_injected =
    Some proc_dot_ast /\
  exists state this',
    parseASTForCompletion (parses proc_dot_injected proc_dot_ast)
      proc_dot (at_ 0 8) constructor = (Ok state, this') /\
    state !! "streamProcessorName" = Some (JStr "proc").
Proof.
  split; [reflexivity|]. split; [reflexivity|].
  exact (streamProcessorName_exact (parses proc_dot_injected proc_dot_ast)
           proc_dot (at_ 0 8) proc_dot_injected proc_dot_ast constructor
           eq_refl eq_refl).
Defined.

(** Property X11.  [stageOperator] is the key of the last stage with the
    marker below it: among the properties [name: { … }] of the object
    elements of the arrays the walk enters, taken in enter order, the last
    one under whose value a property, at any depth, has an identifier
    containing the marker as its key; it is [null] when there is none. *)
Theorem stageOperator_exact parse text position injected ast this :
  _handleTriggerCharacter text position = Ok injected ->
  parse injected = Some ast ->
  exists state this',
    parseASTForCompletion parse text position this = (Ok state, this') /\
    state !! "stageOperator" =
      Some match last (omap stageOperatorOf
                         (flat_map stageProperties
                            (Babel.descendants ast))) with
           | Some name => JStr name
           | None => JNull
           end.
Proof.
  intros Hinject Hparse. completion_walk Hinject Hparse this.
  rewrite <- last_omap_flat_map.
  by apply (walk_name_of_defaults "stageOperator"
              (fun n => last (omap stageOperatorOf (stageProperties n))));
    [apply enter_stageOperator|].
Qed.

Lemma stageOperator_exact_witness :
  _handleTriggerCharacter match_stage (at_ 0 31) = Ok match_stage_injected /\
  parses match_stage_injected match_stage_ast match_stage_injected =
    Some match_stage_ast /\
  exists state this',
    parseASTForCompletion (parses match_stage_injected match_stage_ast)
      match_stage (at_ 0 31) constructor = (Ok state, this') /\
    state !! "stageOperator" = Some (JStr "$match").
Proof.
  split; [reflexivity|]. split; [reflexivity|].
  exact (stageOperator_exact (parses match_stage_injected match_stage_ast)
           match_stage (at_ 0 31) match_stage_injected match_stage_ast
           constructor eq_refl eq_refl).
Defined.

(** ** The fields of the state *)

Lemma in_state_walk nodes this key :
  in_state key (fold_left (fun this path => enter path this) nodes this) =
  in_state key this ||
  (existsb (isBareMemberWithMarker "sp") nodes &&
   in_state "isStreamProcessorName" this && String.eqb "isSpSymbol" key).
Proof.
  revert this. induction nodes as [|n nodes IH]; intros this.
  - by rewrite orb_false_r.
  - simpl fold_left. rewrite IH, !enter_entered, !in_state_entered.
    clear IH.
    change ("isSpSymbol" =? "isStreamProcessorName")%string with false.
    cbn [existsb]. rewrite andb_false_r, orb_false_r.
    destruct (in_state key this), (isBareMemberWithMarker "sp" n),
      (existsb (isBareMemberWithMarker "sp") nodes),
      (in_state "isStreamProcessorName" this),
      ("isSpSymbol" =? key)%string; reflexivity.
Qed.

Lemma in_state_parseAST parse text selection this key :
  in_state key (parseAST parse text selection this) =
  in_state key this ||
  (String.eqb "isSpSymbol" key && in_state "isStreamProcessorName" this &&
   match parse text with
   | Some ast =>
       existsb (isBareMemberWithMarker "sp") (Babel.descendants ast)
   | None => false
   end).
Proof.
  unfold parseAST. cbv zeta. destruct (parse text) as [ast|].
  - unfold Babel.traverse. rewrite in_state_walk.
    change (in_state ?k {| _state := _state this; _selection := selection |})
      with (in_state k this).
    destruct (existsb _ _), ("isSpSymbol" =? key)%string,
      (in_state "isStreamProcessorName" this);
      by rewrite ?orb_false_r, ?orb_true_r.
  - by rewrite !andb_false_r, orb_false_r.
Qed.

(** Property X12.  [parseAST] never removes a field of the state, whatever
    state the visitor holds, and adds at most one: [isSpSymbol], exactly
    when the state has [isStreamProcessorName] and the walk enters a member
    access off the bare identifier [sp] whose property contains the marker. *)
Theorem parseAST_fields parse text selection this key :
  in_state key (parseAST parse text selection this) =
  in_state key this ||
  (String.eqb "isSpSymbol" key && in_state "isStreamProcessorName" this &&
   match parse text with
   | Some ast =>
       existsb (isBareMemberWithMarker "sp") (Babel.descendants ast)
   | None => false
   end).
Proof. apply in_state_parseAST. Qed.

(** Property X13.  On the empty state of a new visitor the walk writes
    nothing: every check finds its field missing. *)
Theorem parseAST_of_new_visitor parse text selection :
  _state (parseAST parse text selection constructor) = ∅.
Proof.
  apply map_eq. intros key. rewrite lookup_empty.
  pose proof (in_state_parseAST parse text selection constructor key) as H.
  unfold in_state in H. cbn [constructor _state] in H.
  rewrite !lookup_empty in H. rewrite andb_false_r in H.
  by destruct (_state _ !! key).
Qed.

Lemma in_state_dom key this :
  key ∈ dom (_state this) <-> in_state key this = true.
Proof. by rewrite in_state_true, elem_of_dom. Qed.

(** Property X14.  On a state of the two fields [databaseName] and
    [collectionName], the walk keeps exactly these two fields and fills them
    in: [databaseName] with the argument of the last [use('literal')] call
    that ends at or before the start of the selection, [collectionName] with
    the last name found under [db]; a field for which nothing is found keeps
    its value. *)
Theorem parseAST_of_namespace_state parse text selection ast this :
  dom (_state this) = {[ "databaseName"; "collectionName" ]} ->
  parse text = Some ast ->
  dom (_state (parseAST parse text selection this)) =
    {[ "databaseName"; "collectionName" ]} /\
  _state (parseAST parse text selection this) !! "databaseName" =
    match last_use_before (start selection) ast with
    | Some value => Some (JStr value)
    | None => _state this !! "databaseName"
    end /\
  _state (parseAST parse text selection this) !! "collectionName" =
    match last (omap (nameUnder "db" "getCollection")
                  (Babel.descendants ast)) with
    | Some name => Some (JStr name)
    | None => _state this !! "collectionName"
    end.
Proof.
  intros Hdom Hparse.
  split; [|split].
  - apply set_eq. intros key. rewrite <- Hdom, !in_state_dom.
    rewrite in_state_parseAST.
    destruct (in_state "isStreamProcessorName" this) eqn:Hsp.
    { apply in_state_dom in Hsp. rewrite Hdom in Hsp.
      apply elem_of_union in Hsp as [Hsp|Hsp];
        by apply elem_of_singleton in Hsp. }
    by rewrite andb_false_r, orb_false_r.
  - unfold parseAST. cbv zeta. rewrite Hparse. unfold Babel.traverse.
    rewrite walk_databaseName; [done|].
    cbn [_state]. apply elem_of_dom. rewrite Hdom.
    apply elem_of_union. left. by apply elem_of_singleton.
  - unfold parseAST. cbv zeta. rewrite Hparse. unfold Babel.traverse.
    rewrite (walk_name_exact "collectionName"
               (nameUnder "db" "getCollection")); [done|..].
    + intros. by apply enter_collectionName.
    + apply in_state_dom. cbn [_state]. rewrite Hdom.
      apply elem_of_union. right. by apply elem_of_singleton.
Qed.

Lemma parseAST_of_namespace_state_witness :
  dom (_state namespace_visitor) = {[ "databaseName"; "collectionName" ]} /\
  parses find_dot_injected find_dot_ast find_dot_injected =
    Some find_dot_ast /\
  _state (parseAST (parses find_dot_injected find_dot_ast)
            find_dot_injected (_selection constructor) namespace_visitor) =
    {[ "databaseName" := JNull; "collectionName" := JStr "coll" ]}.
Proof.
  assert (dom (_state namespace_visitor) =
          {[ "databaseName"; "collectionName" ]}) as Hdom.
  { apply (bool_decide_unpack _). by vm_compute. }
  split; [exact Hdom|]. split; [reflexivity|].
  destruct (parseAST_of_namespace_state
              (parses find_dot_injected find_dot_ast) find_dot_injected
              (_selection constructor) find_dot_ast namespace_visitor
              Hdom eq_refl) as (Hfields & Hdb & Hcoll).
  apply map_eq. intros key.
  destruct (decide (key = "databaseName")) as [->|Hne1]; [exact Hdb|].
  destruct (decide (key = "collectionName")) as [->|Hne2]; [exact Hcoll|].
  rewrite lookup_insert_ne, lookup_singleton_ne by done.
  apply not_elem_of_dom. rewrite Hfields. intros Hkey.
  apply elem_of_union in Hkey as [Hkey|Hkey];
    by apply elem_of_singleton in Hkey.
Defined.

(** ** What the selection decides *)

Lemma agree_in_state this this' key :
  agree_except "databaseName" (_state this) (_state this') ->
  key <> "databaseName" -> in_state key this = in_state key this'.
Proof. intros H Hkey. unfold in_state. by rewrite (H key Hkey). Qed.

Lemma agree_assign_if cond key v this this' :
  key <> "databaseName" ->
  agree_except "databaseName" (_state this) (_state this') ->
  agree_except "databaseName" (_state (assign_if cond key v this))
    (_state (assign_if cond key v this')).
Proof.
  intros Hkey H key' Hkey'. rewrite !lookup_assign_if.
  by rewrite (agree_in_state _ _ _ H Hkey), (H key' Hkey').
Qed.

Lemma agree_assign_name o key this this' :
  key <> "databaseName" ->
  agree_except "databaseName" (_state this) (_state this') ->
  agree_except "databaseName" (_state (assign_name o key this))
    (_state (assign_name o key this')).
Proof. intros Hkey H. destruct o; [by apply agree_assign_if|done]. Qed.

Lemma agree_databaseName o o' this this' :
  agree_except "databaseName" (_state this) (_state this') ->
  agree_except "databaseName"
    (_state (assign_name o "databaseName" this))
    (_state (assign_name o' "databaseName" this')).
Proof.
  intros H key Hkey.
  rewrite !lookup_assign_name_other; [by apply H|..];
    apply String.eqb_neq; congruence.
Qed.

Lemma agree_checkIsStreamProcessorNameAsMemberExpression n this this' :
  agree_except "databaseName" (_state this) (_state this') ->
  agree_except "databaseName"
    (_state (_checkIsStreamProcessorNameAsMemberExpression n this))
    (_state (_checkIsStreamProcessorNameAsMemberExpression n this')).
Proof.
  intros H key Hkey.
  rewrite !lookup_checkIsStreamProcessorNameAsMemberExpression.
  by rewrite (agree_in_state _ _ "isStreamProcessorName" H), (H key Hkey).
Qed.

Lemma agree_enter n this this' :
  agree_except "databaseName" (_state this) (_state this') ->
  agree_except "databaseName" (_state (enter n this))
    (_state (enter n this')).
Proof.
  intros H. rewrite !enter_entered. unfold entered. cbv zeta.
  repeat first
    [ assumption
    | apply agree_assign_if; [done|]
    | apply agree_assign_name; [done|]
    | apply agree_databaseName
    | apply agree_checkIsStreamProcessorNameAsMemberExpression ].
Qed.

(** Property X15.  The selection decides [databaseName] and nothing else:
    two walks of the same text from the same state, under any two
    selections, end in states that agree on every other field. *)
Theorem parseAST_selection_decides_databaseName
    parse text selection selection' this :
  agree_except "databaseName"
    (_state (parseAST parse text selection this))
    (_state (parseAST parse text selection' this)).
Proof.
  unfold parseAST. cbv zeta. destruct (parse text) as [ast|]; [|done].
  unfold Babel.traverse.
  generalize (Babel.descendants ast). intros nodes.
  assert (agree_except "databaseName"
            (_state {| _state := _state this; _selection := selection |})
            (_state {| _state := _state this; _selection := selection' |}))
    as H by done.
  revert H.
  generalize {| _state := _state this; _selection := selection |}.
  generalize {| _state := _state this; _selection := selection' |}.
  induction nodes as [|n nodes IH]; intros this2 this1 H; [done|].
  simpl. by apply IH, agree_enter.
Qed.

(** ** More on the injector *)

Lemma string_app_cons x (a b : string) :
  String x a +:+ b = String x (a +:+ b).
Proof. reflexivity. Qed.

Lemma string_app_assoc (a b c : string) : (a +:+ b) +:+ c = a +:+ (b +:+ c).
Proof.
  induction a as [|x a IH]; [done|]. by rewrite !string_app_cons, IH.
Qed.

Lemma join_cons_cons l l' ls :
  join (l :: l' :: ls) = l +:+ String nl (join (l' :: ls)).
Proof. reflexivity. Qed.

Lemma join_split text : join (split text) = text.
Proof.
  induction text as [|c text IH]; [done|].
  change (split (String c text))
    with (if Ascii.eqb c nl then EmptyString :: split text
          else match split text with
               | l :: ls => String c l :: ls
               | [] => [String c EmptyString]
               end).
  pose proof (split_not_nil text) as Hne.
  destruct (Ascii.eqb_spec c nl) as [->|_];
    destruct (split text) as [|l ls]; try done.
  - by rewrite join_cons_cons, IH.
  - destruct ls as [|l' ls].
    + change (join [l]) with l in IH. by rewrite <- IH.
    + by rewrite join_cons_cons, <- IH, join_cons_cons.
Qed.

(** Replacing a line [p q] by [p m q] inserts [m] at one point of the
    joined text. *)
Lemma join_insert_splice (ls : list string) i p q :
  ls !! i = Some (p +:+ q) ->
  exists before after,
    join ls = before +:+ after /\
    join (<[i := p +:+ PLACEHOLDER +:+ q]> ls) =
      before +:+ PLACEHOLDER +:+ after.
Proof.
  revert i. induction ls as [|l ls IH]; intros i Hl; [done|].
  destruct i as [|i].
  - injection Hl as ->.
    destruct ls as [|l' ls].
    + exists p, q. split; reflexivity.
    + exists p, (q +:+ String nl (join (l' :: ls))). split.
      * etransitivity; [apply join_cons_cons|apply string_app_assoc].
      * etransitivity;
          [apply (join_cons_cons (p +:+ PLACEHOLDER +:+ q) l' ls)|].
        by rewrite !string_app_assoc.
  - change ((l :: ls) !! S i) with (ls !! i) in Hl.
    destruct (IH i Hl) as (before & after & Hjoin & Hins).
    destruct ls as [|l' ls]; [done|].
    exists (l +:+ String nl before), after.
    change (<[S i := p +:+ PLACEHOLDER +:+ q]> (l :: l' :: ls))
      with (l :: <[i := p +:+ PLACEHOLDER +:+ q]> (l' :: ls)).
    destruct (<[i := p +:+ PLACEHOLDER +:+ q]> (l' :: ls))
      as [|l1 ls1] eqn:Hnew.
    { apply (f_equal length) in Hnew. by rewrite length_insert in Hnew. }
    rewrite !join_cons_cons, Hjoin, Hins, !string_app_assoc.
    by rewrite !string_app_cons.
Qed.

Lemma substring_all l : substring 0 (String.length l) l = l.
Proof. induction l as [|c l IH]; [done|]. simpl. by rewrite IH. Qed.

Lemma substring_split k l :
  (k <= String.length l)%nat ->
  substring 0 k l +:+ substring k (String.length l - k) l = l.
Proof.
  revert k. induction l as [|c l IH]; intros k Hk.
  - destruct k; [done|]. simpl in Hk. lia.
  - destruct k as [|k].
    + rewrite Nat.sub_0_r. exact (substring_all (String c l)).
    + change (String c (substring 0 k l +:+
                        substring k (String.length l - k) l) = String c l).
      f_equal. apply IH. simpl in Hk. lia.
Qed.

Lemma slice_index_range len i :
  0 <= len -> 0 <= slice_index len i <= len.
Proof. unfold slice_index. destruct (i <? 0) eqn:E; lia. Qed.

(** The two slices the injector takes of a line are the two sides of one
    cut, wherever the character points. *)
Lemma slice_cut l c :
  slice l 0 c = substring 0 (Z.to_nat (slice_index (Z.of_nat (String.length l)) c)) l /\
  slice_from l c =
    substring (Z.to_nat (slice_index (Z.of_nat (String.length l)) c))
      (String.length l -
       Z.to_nat (slice_index (Z.of_nat (String.length l)) c)) l.
Proof.
  unfold slice_from, slice.
  set (len := Z.of_nat (String.length l)).
  assert (0 <= len) as Hlen by lia.
  pose proof (slice_index_range len c Hlen) as Hc.
  assert (slice_index len 0 = 0) as -> by (unfold slice_index; simpl; lia).
  assert (slice_index len len = len) as ->.
  { unfold slice_index. destruct (len <? 0) eqn:E; lia. }
  split.
  - by rewrite Z.sub_0_r.
  - f_equal. lia.
Qed.

Lemma slice_split l c : slice l 0 c +:+ slice_from l c = l.
Proof.
  destruct (slice_cut l c) as [-> ->]. apply substring_split.
  pose proof (slice_index_range (Z.of_nat (String.length l)) c). lia.
Qed.

Lemma handleTriggerCharacter_cut text position :
  0 <= line position < Z.of_nat (length (split text)) ->
  exists l,
    split text !! Z.to_nat (line position) = Some l /\
    _handleTriggerCharacter text position =
      Ok (join (<[Z.to_nat (line position) :=
                   slice l 0 (character position) +:+ PLACEHOLDER +:+
                   slice_from l (character position)]> (split text))).
Proof.
  intros H. unfold _handleTriggerCharacter. cbv zeta.
  destruct (array_get_in_range _ _ H) as (l & Hl & ->).
  exists l. split; [done|].
  destruct (character position =? 0) eqn:E;
    cbv iota beta; rewrite array_set_in_range by done; [|done].
  apply Z.eqb_eq in E. rewrite E.
  replace (slice l 0 0) with EmptyString.
  - replace (slice_from l 0) with l; [done|].
    pose proof (slice_split l 0) as Hcut.
    replace (slice l 0 0) with EmptyString in Hcut; [done|].
    unfold slice. by destruct l.
  - unfold slice. by destruct l.
Qed.

(** Property X16.  The injector only inserts: for a cursor on a line of the
    text, whatever its character, the returned text is the input with the
    marker put in at one point. *)
Theorem handleTriggerCharacter_inserts text position :
  0 <= line position < Z.of_nat (length (split text)) ->
  exists before after,
    text = before +:+ after /\
    _handleTriggerCharacter text position =
      Ok (before +:+ PLACEHOLDER +:+ after).
Proof.
  intros H. destruct (handleTriggerCharacter_cut _ _ H) as (l & Hl & ->).
  rewrite <- (slice_split l (character position)) in Hl.
  destruct (join_insert_splice _ _ _ _ Hl)
    as (before & after & Hjoin & ->).
  exists before, after. by rewrite <- Hjoin, join_split.
Qed.

Lemma handleTriggerCharacter_inserts_witness :
  0 <= line (at_ 0 3) < Z.of_nat (length (split db_dot)) /\
  exists before after,
    db_dot = before +:+ after /\
    _handleTriggerCharacter db_dot (at_ 0 3) =
      Ok (before +:+ PLACEHOLDER +:+ after).
Proof.
  assert (0 <= line (at_ 0 3) < Z.of_nat (length (split db_dot))) as Hrange.
  { simpl. lia. }
  split; [exact Hrange|].
  exact (handleTriggerCharacter_inserts db_dot (at_ 0 3) Hrange).
Defined.

(** Property X17.  The marker lands at the cursor: for a cursor within a
    line of the text, the line becomes its first [character] code units, the
    marker, and the rest of the line. *)
Theorem handleTriggerCharacter_at_cursor text position l :
  0 <= line position ->
  split text !! Z.to_nat (line position) = Some l ->
  0 <= character position <= Z.of_nat (String.length l) ->
  exists out,
    _handleTriggerCharacter text position = Ok out /\
    split out !! Z.to_nat (line position) =
      Some (substring 0 (Z.to_nat (character position)) l +:+
            PLACEHOLDER +:+
            substring (Z.to_nat (character position))
              (String.length l - Z.to_nat (character position)) l).
Proof.
  intros Hline Hl Hc.
  assert (0 <= line position < Z.of_nat (length (split text))) as Hrange.
  { apply lookup_lt_Some in Hl. lia. }
  destruct (handleTriggerCharacter_cut _ _ Hrange) as (l' & Hl' & ->).
  assert (l' = l) as -> by congruence.
  eexists. split; [reflexivity|].
  assert (no_nl l) as Hnl.
  { eapply Forall_lookup_1; [apply split_no_nl | exact Hl]. }
  destruct (slice_cut l (character position)) as [Hpre Hpost].
  assert (slice_index (Z.of_nat (String.length l)) (character position) =
          character position) as Hindex.
  { unfold slice_index. destruct (character position <? 0) eqn:E; lia. }
  rewrite Hindex in Hpre, Hpost.
  rewrite split_join.
  - rewrite list_lookup_insert_eq by (apply lookup_lt_Some in Hl; lia).
    by rewrite Hpre, Hpost.
  - intros Hnil. apply (f_equal length) in Hnil.
    rewrite length_insert in Hnil. apply lookup_lt_Some in Hl.
    rewrite Hnil in Hl. simpl in Hl. lia.
  - apply Forall_insert; [apply split_no_nl|].
    rewrite Hpre, Hpost.
    auto using no_nl_app, no_nl_PLACEHOLDER, no_nl_substring.
Qed.

Lemma handleTriggerCharacter_at_cursor_witness :
  0 <= line (at_ 0 31) /\
  split match_stage !! Z.to_nat (line (at_ 0 31)) = Some match_stage /\
  0 <= character (at_ 0 31) <= Z.of_nat (String.length match_stage) /\
  exists out,
    _handleTriggerCharacter match_stage (at_ 0 31) = Ok out /\
    split out !! 0%nat =
      Some ("db.coll.aggregate([{ $match: { " +:+ PLACEHOLDER +:+ " } }])").
Proof.
  assert (0 <= character (at_ 0 31) <=
          Z.of_nat (String.length match_stage)) as Hc.
  { simpl. lia. }
  split; [simpl; lia|]. split; [reflexivity|]. split; [exact Hc|].
  exact (handleTriggerCharacter_at_cursor match_stage (at_ 0 31)
           match_stage (Z.le_refl 0) eq_refl Hc).
Defined.






(** ** More selection geometry *)

(** Property X20.  A node is never both around the selection and within it. *)
Theorem around_and_within_exclude path this :
  _isParentAroundSelection path this && _isWithinSelection path this = false.
Proof.
  unfold _isParentAroundSelection, _isWithinSelection.
  destruct (Babel.loc_of path) as [loc|]; [|done].
  apply not_true_iff_false. intros H.
  repeat (rewrite ?andb_true_iff, ?orb_true_iff in H).
  rewrite !Z.ltb_lt, !Z.eqb_eq, !Z.geb_le in H. lia.
Qed.

(** Property X21.  A node around a selection is around every selection
    inside it: one that starts at or after its start and ends at or before
    its end, in document order. *)
Theorem around_smaller_selection path this selection' :
  _isParentAroundSelection path this = true ->
  before_or_at (start (_selection this)) (start selection') ->
  before_or_at (end_ selection') (end_ (_selection this)) ->
  _isParentAroundSelection path (with_selection selection' this) = true.
Proof.
  unfold _isParentAroundSelection, before_or_at, with_selection.
  cbn [_selection].
  destruct (Babel.loc_of path) as [loc|]; [|done].
  intros H Hstart Hend.
  repeat (rewrite ?andb_true_iff, ?orb_true_iff in H).
  repeat (rewrite ?andb_true_iff, ?orb_true_iff).
  rewrite !Z.ltb_lt, !Z.eqb_eq, !Z.gtb_lt in H.
  rewrite !Z.ltb_lt, !Z.eqb_eq, !Z.gtb_lt.
  destruct H as [[[Htruthy Hs] Htruthy'] He].
  repeat split; try done; lia.
Qed.

Lemma around_smaller_selection_witness :
  let braces := ObjectExpression (span 1 0 1 10) [] in
  let this :=
    {| _state := ∅;
       _selection := {| start := at_ 0 2; end_ := at_ 0 5 |} |} in
  let inner := {| start := at_ 0 3; end_ := at_ 0 4 |} in
  _isParentAroundSelection braces this = true /\
  before_or_at (start (_selection this)) (start inner) /\
  before_or_at (end_ inner) (end_ (_selection this)) /\
  _isParentAroundSelection braces (with_selection inner this) = true.
Proof.
  intros braces this inner.
  assert (before_or_at (start (_selection this)) (start inner)) as Hstart.
  { right. simpl. lia. }
  assert (before_or_at (end_ inner) (end_ (_selection this))) as Hend.
  { right. simpl. lia. }
  split; [reflexivity|]. split; [exact Hstart|]. split; [exact Hend|].
  exact (around_smaller_selection braces this inner eq_refl Hstart Hend).
Defined.

(** Property X22.  A property whose key ends before the selection ends
    before every selection that starts at or after it in document order. *)
Theorem prop_before_later_selection path this selection' :
  _isObjectPropBeforeSelection path this = true ->
  before_or_at (start (_selection this)) (start selection') ->
  _isObjectPropBeforeSelection path (with_selection selection' this) = true.
Proof.
  unfold _isObjectPropBeforeSelection, before_or_at, with_selection.
  cbn [_selection].
  destruct path as [| | | | | | | | | |loc key value| |]; try done.
  destruct (Babel.loc_of key) as [keyloc|]; [|done].
  intros H Hstart.
  rewrite orb_true_iff, andb_true_iff, !Z.ltb_lt, Z.eqb_eq in H.
  rewrite orb_true_iff, andb_true_iff, !Z.ltb_lt, Z.eqb_eq. lia.
Qed.

Lemma prop_before_later_selection_witness :
  let property :=
    ObjectProperty (span 1 2 1 6) (Identifier (span 1 2 1 3) "a")
      (Identifier (span 1 5 1 6) "b") in
  let this :=
    {| _state := ∅;
       _selection := {| start := at_ 0 4; end_ := at_ 0 4 |} |} in
  let later := {| start := at_ 1 0; end_ := at_ 1 0 |} in
  _isObjectPropBeforeSelection property this = true /\
  before_or_at (start (_selection this)) (start later) /\
  _isObjectPropBeforeSelection property (with_selection later this) = true.
Proof.
  intros property this later.
  assert (before_or_at (start (_selection this)) (start later)) as Hstart.
  { left. simpl. lia. }
  split; [reflexivity|]. split; [exact Hstart|].
  exact (prop_before_later_selection property this later eq_refl Hstart).
Defined.

(** ** Display names of documents *)

Lemma special_cases c :
  isSpecialUriCharacter c = true -> c = "\"%char \/ c = "/"%char \/ c = "%"%char.
Proof.
  unfold isSpecialUriCharacter. rewrite !orb_true_iff, !Ascii.eqb_eq. tauto.
Qed.

Lemma not_special_not_percent c :
  isSpecialUriCharacter c = false -> Ascii.eqb c "%" = false.
Proof.
  unfold isSpecialUriCharacter. by destruct (Ascii.eqb c "%"); rewrite ?orb_true_r.
Qed.

Lemma unescape_code x y rest :
  unescapeSpecialUriCharacters (String "%" (String x (String y rest))) =
  String (ascii_of_N (16 * hex_value x + hex_value y))
    (unescapeSpecialUriCharacters rest).
Proof. reflexivity. Qed.

Lemma unescape_escape s :
  unescapeSpecialUriCharacters (escapeSpecialUriCharacters s) = s.
Proof.
  induction s as [|c s IH]; [done|].
  cbn [escapeSpecialUriCharacters].
  destruct (isSpecialUriCharacter c) eqn:Hc.
  - destruct (special_cases c Hc) as [-> | [-> | ->]].
    + change (unescapeSpecialUriCharacters
                (String "%" (String "5" (String "c"
                   (escapeSpecialUriCharacters s)))) = String "\" s).
      by rewrite unescape_code, IH.
    + change (unescapeSpecialUriCharacters
                (String "%" (String "2" (String "f"
                   (escapeSpecialUriCharacters s)))) = String "/" s).
      by rewrite unescape_code, IH.
    + change (unescapeSpecialUriCharacters
                (String "%" (String "2" (String "5"
                   (escapeSpecialUriCharacters s)))) = String "%" s).
      by rewrite unescape_code, IH.
  - change (unescapeSpecialUriCharacters
              (String c (escapeSpecialUriCharacters s)) = String c s).
    cbn [unescapeSpecialUriCharacters].
    by rewrite (not_special_not_percent c Hc), IH.
Qed.

(** Property X23.  Escaping loses nothing: the percent sign is escaped along
    with the slashes, so two names with the same escaped text are the same
    name. *)
Theorem escapeSpecialUriCharacters_injective s s' :
  escapeSpecialUriCharacters s = escapeSpecialUriCharacters s' -> s = s'.
Proof.
  intros Heq. apply (f_equal unescapeSpecialUriCharacters) in Heq.
  by rewrite !unescape_escape in Heq.
Qed.

Lemma escapeSpecialUriCharacters_injective_witness :
  escapeSpecialUriCharacters "db/%a" = escapeSpecialUriCharacters "db/%a" /\
  "db/%a" = "db/%a".
Proof.
  split; [reflexivity|].
  exact (escapeSpecialUriCharacters_injective "db/%a" "db/%a" eq_refl).
Defined.

Lemma length_substring_le n m s : (String.length (substring n m s) <= m)%nat.
Proof.
  revert n m. induction s as [|c s IH]; intros n m.
  - destruct n, m; simpl; lia.
  - destruct n as [|n].
    + destruct m as [|m]; simpl; [lia|]. specialize (IH 0%nat m). lia.
    + simpl. apply IH.
Qed.

Lemma string_forall_substring test n m s :
  string_forall test s = true -> string_forall test (substring n m s) = true.
Proof.
  revert n m. induction s as [|c s IH]; intros n m H.
  - by destruct n, m.
  - simpl in H. apply andb_true_iff in H as [Hc Hs].
    destruct n as [|n].
    + destruct m as [|m]; [done|]. simpl. by rewrite Hc, IH.
    + simpl. by apply IH.
Qed.

Lemma escapeSpecialUriCharacters_notSlash s :
  string_forall notSlash (escapeSpecialUriCharacters s) = true.
Proof.
  induction s as [|c s IH]; [done|].
  cbn [escapeSpecialUriCharacters].
  destruct (isSpecialUriCharacter c) eqn:Hc.
  - destruct (special_cases c Hc) as [-> | [-> | ->]].
    + change (string_forall notSlash
                (String "%" (String "5" (String "c"
                   (escapeSpecialUriCharacters s)))) = true).
      by cbn [string_forall].
    + change (string_forall notSlash
                (String "%" (String "2" (String "f"
                   (escapeSpecialUriCharacters s)))) = true).
      by cbn [string_forall].
    + change (string_forall notSlash
                (String "%" (String "2" (String "5"
                   (escapeSpecialUriCharacters s)))) = true).
      by cbn [string_forall].
  - change (string_forall notSlash
              (String c (escapeSpecialUriCharacters s)) = true).
    cbn [string_forall]. rewrite IH, andb_true_r.
    unfold isSpecialUriCharacter in Hc. unfold notSlash.
    destruct (Ascii.eqb c "\"), (Ascii.eqb c "/"); done.
Qed.

(** Property X24.  A display name has at most 200 code units and holds
    neither a slash nor a backslash, whatever the namespace and the document
    id. *)
Theorem getFileDisplayNameForDocument_safe documentId namespace :
  (String.length (getFileDisplayNameForDocument documentId namespace)
     <= 200)%nat /\
  string_forall notSlash
    (getFileDisplayNameForDocument documentId namespace) = true.
Proof.
  unfold getFileDisplayNameForDocument. cbv zeta.
  destruct (200 <? String.length _)%nat eqn:E.
  - split; [apply length_substring_le|].
    apply string_forall_substring, escapeSpecialUriCharacters_notSlash.
  - apply Nat.ltb_ge in E. split; [done|].
    apply escapeSpecialUriCharacters_notSlash.
Qed.

(** Property X25.  Display names that were not cut do not collide: when the
    escaped names have at most 200 code units, equal display names come from
    equal [namespace:id] texts. *)
Theorem getFileDisplayNameForDocument_no_collision
    documentId namespace documentId' namespace' :
  (String.length
     (escapeSpecialUriCharacters (namespace +:+ ":" +:+ documentId))
     <= 200)%nat ->
  (String.length
     (escapeSpecialUriCharacters (namespace' +:+ ":" +:+ documentId'))
     <= 200)%nat ->
  getFileDisplayNameForDocument documentId namespace =
    getFileDisplayNameForDocument documentId' namespace' ->
  namespace +:+ ":" +:+ documentId = namespace' +:+ ":" +:+ documentId'.
Proof.
  unfold getFileDisplayNameForDocument. cbv zeta. intros H H' Heq.
  apply Nat.ltb_ge in H, H'. rewrite H, H' in Heq.
  apply (f_equal unescapeSpecialUriCharacters) in Heq.
  by rewrite !unescape_escape in Heq.
Qed.

Lemma getFileDisplayNameForDocument_no_collision_witness :
  (String.length (escapeSpecialUriCharacters ("db/a" +:+ ":" +:+ ":1"))
     <= 200)%nat /\
  (String.length (escapeSpecialUriCharacters ("db/a:" +:+ ":" +:+ "1"))
     <= 200)%nat /\
  getFileDisplayNameForDocument ":1" "db/a" =
    getFileDisplayNameForDocument "1" "db/a:" /\
  "db/a" +:+ ":" +:+ ":1" = "db/a:" +:+ ":" +:+ "1".
Proof.
  assert (String.length
            (escapeSpecialUriCharacters ("db/a" +:+ ":" +:+ ":1"))
            <= 200)%nat as H.
  { vm_compute. lia. }
  assert (String.length
            (escapeSpecialUriCharacters ("db/a:" +:+ ":" +:+ "1"))
            <= 200)%nat as H'.
  { vm_compute. lia. }
  split; [exact H|]. split; [exact H'|]. split; [reflexivity|].
  exact (getFileDisplayNameForDocument_no_collision
           ":1" "db/a" "1" "db/a:" H H' eq_refl).
Defined.
